(** * Hominum Updater: the synchronisation methods of [MCManager]

    A shallow embedding of [Updater/source/mc/minecraft.py]: the path
    resolution helpers [_create_dir_path] and [_create_file_path], the
    directory synchronisation generator [sync_dir] and the single file
    synchronisation [sync_file].  Python statements become computations in
    a small monad that threads the local filesystem, may raise a Python
    exception, and records every call that leaves the interpreter (the
    filesystem, the [remote] module, the logger, a generator [yield]). *)

From stdpp Require Import gmap strings list fin_maps.

Open Scope string_scope.
Open Scope list_scope.

(** ** Python values that reach a dictionary test *)

Module Py.

(** The objects that the code hands to [in] and [==]: a [str], or a module
    object (the result of an [import]). *)
Inductive pyobj :=
| PyStr (s : string)
| PyModule (qualname : string).

(** [o in d] for a dictionary [d] whose keys are strings.  A module object
    hashes by identity and is equal to no string, hence is never a key. *)
Definition py_in {V : Type} (o : pyobj) (d : gmap string V) : bool :=
  match o with
  | PyStr s => bool_decide (is_Some (d !! s))
  | PyModule _ => false
  end.

(** [o == s] for a string literal [s]. *)
Definition py_eq (o : pyobj) (s : string) : bool :=
  match o with
  | PyStr t => bool_decide (t = s)
  | PyModule _ => false
  end.

(** [x in l] for a list of strings. *)
Definition str_in (x : string) (l : list string) : bool :=
  bool_decide (x ∈ l).

End Py.

(** ** The local filesystem *)

Module Fs.

(** A path is its sequence of components below the root; [p / name] of
    [pathlib] and [os.path.join(p, name)] both append one component. *)
Definition join (p : list string) (name : string) : list string := p ++ [name].

(** [os.path.dirname]. *)
Definition dirname (p : list string) : list string := removelast p.

Inductive node :=
| File (content : string)
| Dir.

#[global] Instance node_eq_dec : EqDecision node.
Proof. solve_decision. Defined.

Definition is_file (o : option node) : bool :=
  match o with Some (File _) => true | _ => false end.

(** [strip_prefix d p] is the remainder of [p] below [d]. *)
Fixpoint strip_prefix (d p : list string) : option (list string) :=
  match d, p with
  | [], _ => Some p
  | x :: d', y :: p' => if decide (x = y) then strip_prefix d' p' else None
  | _ :: _, [] => None
  end.

(** The name of [p] when [p] is an entry of directory [d]. *)
Definition child_name (d p : list string) : option string :=
  match strip_prefix d p with
  | Some [f] => Some f
  | _ => None
  end.

(** The names [os.listdir d] returns: every entry of [d], files and
    sub-directories alike.  [os.listdir] promises no order; the order here
    is the one in which the map enumerates its keys. *)
Definition entries (fs : gmap (list string) node) (d : list string) : list string :=
  omap (child_name d) (map_to_list fs).*1.

(** The non-empty prefixes of a path, shortest first. *)
Fixpoint prefixes (p : list string) : list (list string) :=
  match p with
  | [] => []
  | x :: p' => [x] :: map (cons x) (prefixes p')
  end.

(** The filesystem after creating [p] and its missing ancestors. *)
Definition with_dirs (fs : gmap (list string) node) (p : list string)
  : gmap (list string) node :=
  foldr (λ q acc, <[q := Dir]> acc) fs (prefixes p).

End Fs.

Export Py Fs.

(** ** Exceptions, observable calls and the computation monad *)

Module Effects.

(** The Python exceptions that these methods and the [os] calls they make
    can raise. *)
Inductive exn :=
| ValueError (msg : string)
| KeyError (key : string)
| TypeError (msg : string)
| FileExistsError (p : list string)
| FileNotFoundError (p : list string)
| NotADirectoryError (p : list string)
| IsADirectoryError (p : list string).

(** Modelled from the spec: one element of what [remote.get_file_downloads]
    returns and [remote.download] takes, a source URL with the file name;
    [minecraft.py] only passes these values on. *)
Record job := Job { job_url : string; job_filename : string }.

(** A progress tuple [(count, total, filename, error_occured)]. *)
Definition progress : Type := nat * nat * string * bool.

Inductive level := DEBUG | INFO | WARNING.

(** Every call that leaves the method, in program order. *)
Inductive event :=
| Mkdir (p : list string)
| Listdir (p : list string)
| Exists (p : list string)
| Remove (p : list string)
| GetFilenames (url : string)
| GetFileDownloads (url : string)
| GetFileDownload (url : string)
| Download (j : job) (dest : list string)
| DownloadFiles (jobs : list job) (dir : list string)
| Log (lvl : level) (fmt : string)
| Yield (p : progress).

#[global] Instance exn_eq_dec : EqDecision exn.
Proof. solve_decision. Defined.
#[global] Instance job_eq_dec : EqDecision job.
Proof. solve_decision. Defined.
#[global] Instance level_eq_dec : EqDecision level.
Proof. solve_decision. Defined.
#[global] Instance event_eq_dec : EqDecision event.
Proof. solve_decision. Defined.

Inductive outcome (A : Type) :=
| Returned (a : A)
| Raised (e : exn).
Arguments Returned {A} a.
Arguments Raised {A} e.

(** A computation runs on a filesystem and gives its outcome, the
    filesystem it leaves behind and the calls it made.  What was done
    before an exception stays done. *)
Definition M (A : Type) : Type :=
  gmap (list string) node → outcome A * gmap (list string) node * list event.

Definition ret {A} (a : A) : M A := λ fs, (Returned a, fs, []).

Definition raise {A} (e : exn) : M A := λ fs, (Raised e, fs, []).

Definition bind {A B} (m : M A) (k : A → M B) : M B := λ fs,
  match m fs with
  | (Returned a, fs1, t1) =>
      match k a fs1 with
      | (o, fs2, t2) => (o, fs2, t1 ++ t2)
      end
  | (Raised e, fs1, t1) => (Raised e, fs1, t1)
  end.

Definition emit (e : event) : M unit := λ fs, (Returned tt, fs, [e]).

Declare Scope py_scope.
Delimit Scope py_scope with py.
Notation "x ⇐ m ; k" := (bind m (λ x, k))
  (at level 20, m at level 100, k at level 200, only parsing) : py_scope.
Notation "' x ⇐ m ; k" := (bind m (λ x, k))
  (at level 20, x pattern, m at level 100, k at level 200, only parsing)
  : py_scope.
Notation "m ;; k" := (bind m (λ _, k))
  (at level 100, k at level 200, only parsing, right associativity) : py_scope.
Open Scope py_scope.

(** A [for] statement over a list that was computed beforehand. *)
Fixpoint for_each {A} (xs : list A) (body : A → M unit) : M unit :=
  match xs with
  | [] => ret tt
  | x :: rest => body x ;; for_each rest body
  end.

Definition result {A} (r : outcome A * gmap (list string) node * list event)
  : outcome A := r.1.1.
Definition final_fs {A} (r : outcome A * gmap (list string) node * list event)
  : gmap (list string) node := r.1.2.
Definition calls {A} (r : outcome A * gmap (list string) node * list event)
  : list event := r.2.

(** The sequence a consumer of the generator receives. *)
Definition yielded (t : list event) : list progress :=
  omap (λ e, match e with Yield p => Some p | _ => None end) t.

(** The paths handed to [os.remove]. *)
Definition removals (t : list event) : list (list string) :=
  omap (λ e, match e with Remove p => Some p | _ => None end) t.

(** The job lists handed to [remote.download_files]. *)
Definition submitted (t : list event) : list (list job) :=
  omap (λ e, match e with DownloadFiles js _ => Some js | _ => None end) t.

(** The calls that go to the network. *)
Definition is_remote_call (e : event) : bool :=
  match e with
  | GetFilenames _ | GetFileDownloads _ | GetFileDownload _
  | Download _ _ | DownloadFiles _ _ => true
  | _ => false
  end.

(** *** The [os] and [pathlib] calls *)

(** [Path.mkdir(parents=True, exist_ok=True)], line 83: a regular file at
    [p] or at one of its ancestors makes the call fail on [p], otherwise
    every missing directory on the way is created. *)
Definition mkdir_parents (p : list string) : M unit := λ fs,
  match find (λ q, is_file (fs !! q)) (prefixes p) with
  | Some q =>
      (Raised (if decide (q = p) then FileExistsError p else NotADirectoryError p),
       fs, [Mkdir p])
  | None => (Returned tt, with_dirs fs p, [Mkdir p])
  end.

(** [os.makedirs(p, exist_ok=True)], line 113: it creates the missing
    directories from the top down, so that a regular file at an ancestor
    of [p] makes it fail on the first directory below that file, and a
    regular file at [p] on [p] itself.  Paths are absolute, as
    [context.work_dir] is, so [p] is never the empty string. *)
Definition os_makedirs (p : list string) : M unit := λ fs,
  match find (λ q, is_file (fs !! q)) (prefixes p) with
  | Some q =>
      (Raised (if decide (q = p) then FileExistsError p
               else NotADirectoryError (take (S (length q)) p)),
       fs, [Mkdir p])
  | None => (Returned tt, with_dirs fs p, [Mkdir p])
  end.

Definition os_listdir (d : list string) : M (list string) := λ fs,
  match fs !! d with
  | Some Dir => (Returned (entries fs d), fs, [Listdir d])
  | Some (File _) => (Raised (NotADirectoryError d), fs, [Listdir d])
  | None => (Raised (FileNotFoundError d), fs, [Listdir d])
  end.

Definition os_path_exists (p : list string) : M bool := λ fs,
  (Returned (bool_decide (is_Some (fs !! p))), fs, [Exists p]).

(** [os.remove] unlinks a regular file and refuses a directory (with
    [IsADirectoryError] on Linux) or a path that does not exist.  The
    filesystem carries no permissions: a refusal for lack of them is not
    represented, so the statements below say what follows from an outcome
    and never list the exceptions a run can end with. *)
Definition os_remove (p : list string) : M unit := λ fs,
  match fs !! p with
  | Some (File _) => (Returned tt, delete p fs, [Remove p])
  | Some Dir => (Raised (IsADirectoryError p), fs, [Remove p])
  | None => (Raised (FileNotFoundError p), fs, [Remove p])
  end.

Definition log (lvl : level) (fmt : string) : M unit := emit (Log lvl fmt).

Definition yield (p : progress) : M unit := emit (Yield p).

End Effects.

Export Effects.
Open Scope py_scope.

(** ** The [remote] module, as [minecraft.py] uses it *)

Module Remote.

(** Modelled from the spec: the functions of [source/mc/remote.py], which
    [minecraft.py] imports and whose source is not at hand.  Each listing
    call answers with a listing or with [None]; [download] reports success
    and [download_files] produces one progress tuple per processed job;
    both may change the local filesystem. *)
Record remote_module := {
  get_filenames : string → option (list string);
  get_file_downloads : string → option (list job);
  get_file_download : string → option job;
  download : job → list string → gmap (list string) node
             → bool * gmap (list string) node;
  download_files : list job → list string → gmap (list string) node
                   → list progress * gmap (list string) node
}.

End Remote.

Export Remote.

(** ** [class MCManager] *)

Module MCManager.

(** [from source.mc import remote]: throughout [minecraft.py] the global
    name [remote] is bound to that module object. *)
Definition remote : pyobj := PyModule "source.mc.remote".

(** The attributes the synchronisation methods read: [context.work_dir]
    and [remote_config], a dictionary of sections (or [None]) whose
    ["urls"] section maps a name to a URL or to [None].  Every section is
    a dictionary: a manifest in which a whole section is [null] is not
    represented. *)
Record MCManager := {
  work_dir : list string;
  remote_config : option (gmap string (gmap string (option string)))
}.

Section Methods.

Context (net : remote_module).

Definition remote_get_filenames (url : string) : M (option (list string)) :=
  emit (GetFilenames url) ;; ret (get_filenames net url).

Definition remote_get_file_downloads (url : string) : M (option (list job)) :=
  emit (GetFileDownloads url) ;; ret (get_file_downloads net url).

Definition remote_get_file_download (url : string) : M (option job) :=
  emit (GetFileDownload url) ;; ret (get_file_download net url).

Definition remote_download (j : job) (dest : list string) : M bool := λ fs,
  let '(ok, fs') := download net j dest fs in
  (Returned ok, fs', [Download j dest]).

Definition remote_download_files (jobs : list job) (dir : list string)
  : M (list progress) := λ fs,
  let '(evs, fs') := download_files net jobs dir fs in
  (Returned evs, fs', [DownloadFiles jobs dir]).

(** [self.remote_config["urls"]]. *)
Definition config_urls (self : MCManager) : M (gmap string (option string)) :=
  match remote_config self with
  | None => raise (TypeError "'NoneType' object is not subscriptable")
  | Some cfg =>
      match cfg !! "urls" with
      | None => raise (KeyError "urls")
      | Some urls => ret urls
      end
  end.

(** [d[key]] on the urls section. *)
Definition subscript (urls : gmap string (option string)) (key : string)
  : M (option string) :=
  match urls !! key with
  | None => raise (KeyError key)
  | Some v => ret v
  end.

(** Lines 83-87 of [_create_dir_path]: create the directory, read the URL
    of [remote_dir] and return both. *)
Definition create_local_dir (self : MCManager) (local_dir : list string)
    (remote_dir : string) : M (list string * option string) :=
  mkdir_parents local_dir ;;
  urls ⇐ config_urls self ;
  remote_dir_url ⇐ subscript urls remote_dir ;
  log DEBUG "Remote directory URL: %s" ;;
  ret (local_dir, remote_dir_url).

(** [_create_dir_path(self, remote_dir)].  The tests of lines 70-81 read
    the name [remote], which is the imported module, and not the parameter
    [remote_dir]; line 84 reads [remote_dir]. *)
Definition _create_dir_path (self : MCManager) (remote_dir : string)
  : M (list string * option string) :=
  match remote_config self with
  | None => raise (ValueError "Remote config is not set")
  | Some _ =>
      urls ⇐ config_urls self ;
      if negb (py_in remote urls) then
        raise (ValueError "Invalid remote directory")
      else
        local_dir ⇐
          (if py_eq remote "config" then ret (join (work_dir self) "config")
           else if py_eq remote "mods" then ret (join (work_dir self) "mods")
           else if py_eq remote "resourcepacks" then
             ret (join (work_dir self) "resourcepacks")
           else if py_eq remote "shaderpacks" then
             ret (join (work_dir self) "shaderpacks")
           else raise (ValueError "Unknown valid remote directory")) ;
        create_local_dir self local_dir remote_dir
  end.

(** [_create_file_path(self, remote_file)]. *)
Definition _create_file_path (self : MCManager) (remote_file : string)
  : M (list string * option string) :=
  urls ⇐ config_urls self ;
  if negb (py_in (PyStr remote_file) urls) then
    raise (ValueError "Invalid remote file")
  else
    local_filepath ⇐
      (if py_eq (PyStr remote_file) "options" then
         ret (join (work_dir self) "options.txt")
       else if py_eq (PyStr remote_file) "servers" then
         ret (join (work_dir self) "servers.dat")
       else raise (ValueError "Unknown valid remote file")) ;
    os_makedirs (dirname local_filepath) ;;
    urls' ⇐ config_urls self ;
    remote_file_url ⇐ subscript urls' remote_file ;
    log DEBUG "Remote file URL: %s" ;;
    ret (local_filepath, remote_file_url).

(** Lines 170-173 of [sync_dir]: the body of the removal loop. *)
Definition remove_if_invalid (local_dir : list string)
    (server_mods : list string) (file : string) : M unit :=
  if negb (str_in file server_mods) then
    let file_path := join local_dir file in
    os_remove file_path ;;
    log INFO "Invalid mod '%s' removed"
  else ret tt.

(** Lines 168-173 of [sync_dir], "Remove invalid mods". *)
Definition remove_invalid (local_dir : list string) (server_mods : list string)
  : M unit :=
  files ⇐ os_listdir local_dir ;
  for_each files (remove_if_invalid local_dir server_mods).

(** Lines 175-182 of [sync_dir], "Download mods". *)
Definition download_mods (local_dir : list string) (remote_dir_url : string)
  : M unit :=
  urls_to_download ⇐ remote_get_file_downloads remote_dir_url ;
  match urls_to_download with
  | None => raise (ValueError "URLs to download are not set")
  | Some jobs =>
      evs ⇐ remote_download_files jobs local_dir ;
      for_each evs yield
  end.

(** Lines 162-182 of [sync_dir]: what the generator does once line 161
    has bound [local_dir] and [remote_dir_url]. *)
Definition sync_dir_resolved (local_dir : list string)
    (remote_dir_url : option string) : M unit :=
  match remote_dir_url with
  | None => log WARNING "Remote directory '%s' is not set"
  | Some url =>
      server_mods ⇐ remote_get_filenames url ;
      match server_mods with
      | None => raise (ValueError "Server filenames are not set")
      | Some names =>
          remove_invalid local_dir names ;;
          download_mods local_dir url
      end
  end.

(** [sync_dir(self, remote_dir)], run by a consumer that exhausts the
    generator: the tuples it yields are the [Yield] calls. *)
Definition sync_dir (self : MCManager) (remote_dir : string) : M unit :=
  '(local_dir, remote_dir_url) ⇐ _create_dir_path self remote_dir ;
  sync_dir_resolved local_dir remote_dir_url.

(** Lines 196-209 of [sync_file]. *)
Definition sync_file_resolved (local_filepath : list string)
    (remote_file_url : option string) : M unit :=
  match remote_file_url with
  | None => log WARNING "Remote file '%s' is not set"
  | Some url =>
      server_file ⇐ remote_get_file_download url ;
      match server_file with
      | None => raise (ValueError "Server file is not set")
      | Some j =>
          present ⇐ os_path_exists local_filepath ;
          (if present then
             os_remove local_filepath ;;
             log INFO "Removed existing local file '%s'"
           else ret tt : M unit) ;;
          remote_download j local_filepath ;;
          ret tt
      end
  end.

(** [sync_file(self, remote_file)]. *)
Definition sync_file (self : MCManager) (remote_file : string) : M unit :=
  '(local_filepath, remote_file_url) ⇐ _create_file_path self remote_file ;
  sync_file_resolved local_filepath remote_file_url.

End Methods.

End MCManager.

Export MCManager.

(** ** Vocabulary of the statements *)

(** A call made by the removal loop: [os.remove] or the logger. *)
Definition is_removal_call (e : event) : bool :=
  match e with
  | Remove _ | Log _ _ => true
  | _ => false
  end.

(** No [os.remove] call follows a call to [remote.download_files]. *)
Fixpoint removals_precede_downloads (t : list event) : bool :=
  match t with
  | [] => true
  | DownloadFiles _ _ :: rest =>
      forallb (λ e, match e with Remove _ => false | _ => true end) rest
  | _ :: rest => removals_precede_downloads rest
  end.

(** The filesystem after unlinking the paths [ps] one after the other. *)
Definition unlink_all (ps : list (list string)) (fs : gmap (list string) node)
  : gmap (list string) node :=
  foldl (λ acc p, delete p acc) fs ps.

(** The listed names the server does not know. *)
Definition stale (server_mods names : list string) : list string :=
  filter (λ f, f ∉ server_mods) names.

(** The exception [os.remove p] raises on [fs] when [p] is no regular
    file. *)
Definition removal_error (fs : gmap (list string) node) (p : list string) : exn :=
  match fs !! p with
  | Some Dir => IsADirectoryError p
  | _ => FileNotFoundError p
  end.

(** The calls of a loop that unlinks [names] without failure. *)
Definition unlink_calls (d : list string) (names : list string) : list event :=
  flat_map (λ f, [Remove (join d f); Log INFO "Invalid mod '%s' removed"]) names.

(** The local path of a single file, as lines 106-109 choose it. *)
Definition local_file (self : MCManager) (name : string) : list string :=
  join (work_dir self)
       (if bool_decide (name = "options") then "options.txt" else "servers.dat").

(** The calls of lines 204-206 on a destination that exists or not. *)
Definition unlink_existing (present : bool) (p : list string) : list event :=
  if present then [Remove p; Log INFO "Removed existing local file '%s'"]
  else [].

(** ** Concrete installations used to exercise the methods *)

Module Scenario.

Definition mods_url : string := "https://host/mods".
Definition config_url : string := "https://host/config".
Definition shaders_url : string := "https://host/shaderpacks".
Definition options_url : string := "https://host/options.txt".

Definition sodium : job := Job "https://host/mods/sodium.jar" "sodium.jar".
Definition lithium : job := Job "https://host/mods/lithium.jar" "lithium.jar".
Definition options : job := Job "https://host/options.txt" "options.txt".

(** The names the server lists for the mods category. *)
Definition listed : list string := ["sodium.jar"; "lithium.jar"].

Definition store : list string := ["store"; "mcdata"].
Definition mods_dir : list string := join store "mods".
Definition config_dir : list string := join store "config".

(** A server that lists two mods, has no listing for the config category
    and knows the names of the shader packs but not their downloads.
    Downloads succeed and write the file. *)
Definition server : remote_module := {|
  get_filenames := λ url,
    if decide (url = mods_url) then Some listed
    else if decide (url = shaders_url) then Some ["bsl.zip"]
    else None;
  get_file_downloads := λ url,
    if decide (url = mods_url) then Some [sodium; lithium] else None;
  get_file_download := λ url,
    if decide (url = options_url) then Some options else None;
  download := λ j dest fs, (true, <[dest := File (job_url j)]> fs);
  download_files := λ jobs dir fs,
    (imap (λ i j, (S i, length jobs, job_filename j, false)) jobs,
     foldr (λ j acc, <[join dir (job_filename j) := File (job_url j)]> acc)
           fs jobs)
|}.

(** The same server with a download primitive that fails and writes
    nothing. *)
Definition offline : remote_module := {|
  get_filenames := get_filenames server;
  get_file_downloads := get_file_downloads server;
  get_file_download := get_file_download server;
  download := λ j dest fs, (false, fs);
  download_files := λ jobs dir fs,
    (imap (λ i j, (S i, length jobs, job_filename j, true)) jobs, fs)
|}.

(** The urls section of a manifest with mods, shader packs and options
    enabled, and the config category and the servers file switched off. *)
Definition manifest_urls : gmap string (option string) :=
  {[ "mods" := Some mods_url; "shaderpacks" := Some shaders_url;
     "config" := None; "options" := Some options_url; "servers" := None ]}.

Definition manager : MCManager := {|
  work_dir := store;
  remote_config := Some {[ "urls" := manifest_urls ]}
|}.

(** A urls section that has no entry for the single files. *)
Definition dirs_only_urls : gmap string (option string) :=
  {[ "mods" := Some mods_url ]}.

Definition manager_dirs_only : MCManager := {|
  work_dir := store;
  remote_config := Some {[ "urls" := dirs_only_urls ]}
|}.

Definition base : list (list string * node) :=
  [ (["store"], Dir); (store, Dir); (mods_dir, Dir) ].

(** One mod of the listing is installed, next to an outdated one. *)
Definition disk_plain : gmap (list string) node :=
  list_to_map (base ++ [ (join mods_dir "sodium.jar", File "sodium 0.5");
                         (join mods_dir "a.jar", File "outdated") ]).

(** The same, with a sub-directory the server does not list. *)
Definition disk_with_subdir : gmap (list string) node :=
  <[join mods_dir "libs" := Dir]> disk_plain.

(** A working directory with an options file and no category directory. *)
Definition disk_fresh : gmap (list string) node :=
  list_to_map [ (["store"], Dir); (store, Dir);
                (join store "options.txt", File "fov:90") ].

End Scenario.

(** ** More installations, for the further properties *)

Module Cases.

Import Scenario.

Definition servers_url : string := "https://host/servers.dat".

(** A manifest with a URL for both single files; the server of
    [Scenario] has a record for the options file only. *)
Definition files_urls : gmap string (option string) :=
  {[ "options" := Some options_url; "servers" := Some servers_url ]}.

Definition manager_files : MCManager := {|
  work_dir := store;
  remote_config := Some {[ "urls" := files_urls ]}
|}.

(** A directory stands where the options file should be. *)
Definition disk_options_dir : gmap (list string) node :=
  <[join store "options.txt" := Dir]> disk_fresh.

(** The local path of the options file. *)
Definition options_path : list string := join store "options.txt".

End Cases.

(** * Properties *)

(** ** Paths and directory listings *)

Section FsFacts.

Implicit Types (d p q : list string) (f g : string).
Implicit Types (fs : gmap (list string) node).

Lemma join_inj d f g : join d f = join d g → f = g.
Proof.
  unfold join. intros H. apply app_inv_head in H. by injection H.
Qed.

Lemma dirname_join d f : dirname (join d f) = d.
Proof. unfold dirname, join. apply removelast_last. Qed.

Lemma strip_prefix_spec d p r : strip_prefix d p = Some r ↔ p = d ++ r.
Proof.
  revert p. induction d as [|x d IH]; intros p; simpl.
  - split; congruence.
  - destruct p as [|y p]; [split; discriminate|].
    destruct (decide (x = y)) as [->|Hne].
    + rewrite IH. split; congruence.
    + split; [discriminate | congruence].
Qed.

Lemma child_name_spec d p f : child_name d p = Some f ↔ p = join d f.
Proof.
  unfold child_name, join.
  destruct (strip_prefix d p) as [r|] eqn:E.
  - apply strip_prefix_spec in E. subst p.
    destruct r as [|a [|b r]]; split; intros H; try discriminate.
    + apply (f_equal length) in H. rewrite !length_app in H. simpl in H. lia.
    + congruence.
    + apply app_inv_head in H. congruence.
    + apply app_inv_head in H. discriminate.
  - split; [discriminate|]. intros ->.
    assert (strip_prefix d (d ++ [f]) = Some [f]) as H by by apply strip_prefix_spec.
    congruence.
Qed.

Lemma child_name_join d f : child_name d (join d f) = Some f.
Proof. by apply child_name_spec. Qed.

Lemma elem_of_entries fs d f : f ∈ entries fs d ↔ is_Some (fs !! join d f).
Proof.
  unfold entries. rewrite list_elem_of_omap. split.
  - intros (p & Hp & Hc). apply child_name_spec in Hc. subst p.
    apply list_elem_of_fmap in Hp as ([p n] & -> & Hin).
    apply elem_of_map_to_list in Hin. simpl. eauto.
  - intros [n Hn]. exists (join d f). split; [|apply child_name_join].
    apply list_elem_of_fmap. exists (join d f, n). split; [done|].
    by apply elem_of_map_to_list.
Qed.

Lemma NoDup_omap_inj {A B} (h : A → option B) (l : list A) :
  (∀ x y z, h x = Some z → h y = Some z → x = y) →
  NoDup l → NoDup (omap h l).
Proof.
  intros Hinj. induction 1 as [|x l Hx Hl IH]; simpl; [constructor|].
  destruct (h x) as [z|] eqn:E; [|done].
  constructor; [|done].
  rewrite list_elem_of_omap. intros (y & Hy & Hz).
  by rewrite (Hinj _ _ _ E Hz) in Hx.
Qed.

Lemma NoDup_entries fs d : NoDup (entries fs d).
Proof.
  unfold entries. apply NoDup_omap_inj; [|apply NoDup_fst_map_to_list].
  intros p q f Hp Hq. apply child_name_spec in Hp, Hq. congruence.
Qed.

Lemma prefixes_length p q : q ∈ prefixes p → (length q ≤ length p)%nat.
Proof.
  revert q. induction p as [|x p IH]; intros q; simpl; [by intros ?%elem_of_nil|].
  intros [->|H]%elem_of_cons; [simpl; lia|].
  apply list_elem_of_fmap in H as (r & -> & Hr). apply IH in Hr. simpl. lia.
Qed.

Lemma prefixes_self p : p ≠ [] → p ∈ prefixes p.
Proof.
  induction p as [|x p IH]; [done|]. intros _. simpl.
  destruct p as [|y p]; [left|].
  right. apply list_elem_of_fmap. exists (y :: p). split; [done|]. by apply IH.
Qed.

Lemma with_dirs_lookup fs p q :
  with_dirs fs p !! q = if bool_decide (q ∈ prefixes p) then Some Dir else fs !! q.
Proof.
  unfold with_dirs. induction (prefixes p) as [|r l IH]; cbn [foldr].
  - rewrite bool_decide_eq_false_2; [done|]. by intros ?%elem_of_nil.
  - destruct (decide (r = q)) as [->|Hne].
    + rewrite lookup_insert_eq, bool_decide_eq_true_2; [done|]. left.
    + rewrite lookup_insert_ne, IH by done.
      destruct (decide (q ∈ l)) as [Hin|Hin].
      * rewrite !bool_decide_eq_true_2; [done| by right | done].
      * rewrite !bool_decide_eq_false_2; [done| |done].
        intros [?|?]%elem_of_cons; congruence.
Qed.

Lemma with_dirs_self fs p : p ≠ [] → with_dirs fs p !! p = Some Dir.
Proof.
  intros Hp. rewrite with_dirs_lookup.
  rewrite bool_decide_eq_true_2; [done|]. by apply prefixes_self.
Qed.

Lemma with_dirs_below fs d f : with_dirs fs d !! join d f = fs !! join d f.
Proof.
  rewrite with_dirs_lookup. rewrite bool_decide_eq_false_2; [done|].
  intros H%prefixes_length. unfold join in H. rewrite length_app in H.
  simpl in H. lia.
Qed.

End FsFacts.

(** ** Running computations *)

Section MonadFacts.

Context {A B : Type}.

Lemma bind_unfold (m : M A) (k : A → M B) fs :
  bind m k fs =
  match m fs with
  | (Returned a, fs1, t1) =>
      (result (k a fs1), final_fs (k a fs1), t1 ++ calls (k a fs1))
  | (Raised e, fs1, t1) => (Raised e, fs1, t1)
  end.
Proof.
  unfold bind. destruct (m fs) as [[[a|e] fs1] t1]; [|done].
  by destruct (k a fs1) as [[o fs2] t2].
Qed.

Lemma bind_returned (m : M A) (k : A → M B) fs a fs1 t1 :
  m fs = (Returned a, fs1, t1) →
  bind m k fs = (result (k a fs1), final_fs (k a fs1), t1 ++ calls (k a fs1)).
Proof. intros H. by rewrite bind_unfold, H. Qed.

Lemma bind_raised (m : M A) (k : A → M B) fs e fs1 t1 :
  m fs = (Raised e, fs1, t1) → bind m k fs = (Raised e, fs1, t1).
Proof. intros H. by rewrite bind_unfold, H. Qed.

Lemma bind_ret (a : A) (k : A → M B) fs : bind (ret a) k fs = k a fs.
Proof. unfold bind, ret. by destruct (k a fs) as [[o fs2] t2]. Qed.

End MonadFacts.

Lemma submitted_app t1 t2 : submitted (t1 ++ t2) = submitted t1 ++ submitted t2.
Proof. unfold submitted. apply omap_app. Qed.

(** ** The removal loop of [sync_dir] *)

Section RemovalLoop.

Context (d : list string) (R : list string).

Implicit Types (f : string) (names : list string).
Implicit Types (fs : gmap (list string) node).

Lemma unlink_all_lookup ps fs p :
  unlink_all ps fs !! p = if bool_decide (p ∈ ps) then None else fs !! p.
Proof.
  unfold unlink_all. revert fs. induction ps as [|q ps IH]; intros fs; cbn [foldl].
  - rewrite bool_decide_eq_false_2; [done|]. by intros ?%elem_of_nil.
  - rewrite IH. destruct (decide (p ∈ ps)) as [Hin|Hin].
    + rewrite !bool_decide_eq_true_2; [done| by right | done].
    + rewrite (bool_decide_eq_false_2 (p ∈ ps)) by done.
      destruct (decide (q = p)) as [->|Hne].
      * rewrite lookup_delete_eq, bool_decide_eq_true_2; [done|left].
      * rewrite lookup_delete_ne, bool_decide_eq_false_2; [done| |done].
        intros [?|?]%elem_of_cons; congruence.
Qed.

Lemma elem_of_stale names f : f ∈ stale R names ↔ f ∈ names ∧ f ∉ R.
Proof. unfold stale. rewrite list_elem_of_filter. tauto. Qed.

Lemma remove_if_invalid_unfold f fs :
  remove_if_invalid d R f fs =
  if bool_decide (f ∈ R) then (Returned tt, fs, [])
  else match fs !! join d f with
       | Some (File _) =>
           (Returned tt, delete (join d f) fs,
            [Remove (join d f); Log INFO "Invalid mod '%s' removed"])
       | _ => (Raised (removal_error fs (join d f)), fs, [Remove (join d f)])
       end.
Proof.
  unfold remove_if_invalid, str_in, removal_error.
  destruct (bool_decide (f ∈ R)); cbn [negb]; [done|].
  unfold bind, os_remove, log, emit.
  by destruct (fs !! join d f) as [[c|]|].
Qed.

Lemma stale_cons_keep x names : x ∉ R → stale R (x :: names) = x :: stale R names.
Proof. intros H. unfold stale. by rewrite filter_cons_True. Qed.

Lemma stale_cons_skip x names : x ∈ R → stale R (x :: names) = stale R names.
Proof. intros H. unfold stale. rewrite filter_cons_False; [done|]. by intros []. Qed.

(** When every stale name is a regular file the loop unlinks exactly the
    stale names, in listing order, and returns. *)
Lemma removal_loop_success names fs :
  NoDup names →
  (∀ f, f ∈ names → f ∉ R → is_file (fs !! join d f) = true) →
  for_each names (remove_if_invalid d R) fs =
  (Returned tt, unlink_all (join d <$> stale R names) fs,
   unlink_calls d (stale R names)).
Proof.
  intros Hnd. revert fs. induction Hnd as [|x names Hx Hnd IH]; intros fs Hfile.
  - done.
  - cbn [for_each]. rewrite bind_unfold, remove_if_invalid_unfold.
    destruct (decide (x ∈ R)) as [HxR|HxR].
    + rewrite bool_decide_eq_true_2 by done. rewrite stale_cons_skip by done.
      rewrite IH; [done|]. intros f Hf. apply Hfile. by right.
    + rewrite bool_decide_eq_false_2 by done. rewrite stale_cons_keep by done.
      specialize (Hfile x (list_elem_of_here _ _) HxR) as Hxf.
      destruct (fs !! join d x) as [[c|]|]; try discriminate.
      rewrite IH; [done|]. intros f Hf HfR.
      rewrite lookup_delete_ne.
      * apply Hfile; [by right|done].
      * intros Heq%join_inj. by subst.
Qed.

(** What every run of the loop satisfies: it only calls [os.remove] and
    the logger; it changes no path other than by unlinking a stale listed
    name; when it returns every stale name was a regular file and is gone;
    when it raises, the exception is the one [os.remove] raised on a stale
    name that is no regular file, and that entry is still there. *)
Lemma removal_loop_run names fs :
  NoDup names →
  let r := for_each names (remove_if_invalid d R) fs in
  forallb is_removal_call (calls r) = true ∧
  (∀ p, final_fs r !! p = fs !! p ∨
        (final_fs r !! p = None ∧ ∃ f, f ∈ names ∧ (f ∉ R) ∧ p = join d f)) ∧
  match result r with
  | Returned _ =>
      ∀ f, f ∈ names → f ∉ R →
        is_file (fs !! join d f) = true ∧ final_fs r !! join d f = None
  | Raised e =>
      ∃ f, f ∈ names ∧ (f ∉ R) ∧ is_file (fs !! join d f) = false ∧
           e = removal_error fs (join d f) ∧
           final_fs r !! join d f = fs !! join d f
  end.
Proof.
  intros Hnd. revert fs. induction Hnd as [|x names Hx Hnd IH]; intros fs.
  - cbn. split; [done|]. split; [by left|]. by intros f ?%elem_of_nil.
  - cbn [for_each]. cbv zeta. rewrite bind_unfold, remove_if_invalid_unfold.
    destruct (decide (x ∈ R)) as [HxR|HxR].
    + rewrite bool_decide_eq_true_2 by done.
      destruct (IH fs) as (Hc & Hfr & Hres). cbn [result final_fs calls fst snd app].
      split; [done|]. split.
      * intros p. destruct (Hfr p) as [?|(? & f & ? & ? & ?)]; [by left|].
        right. split; [done|]. exists f. split; [by right|done].
      * destruct (result (for_each names (remove_if_invalid d R) fs)).
        -- intros f [->|Hf]%elem_of_cons HfR; [done|]. by apply Hres.
        -- destruct Hres as (f & ? & ?). exists f. split; [by right|done].
    + rewrite bool_decide_eq_false_2 by done.
      destruct (fs !! join d x) as [[c|]|] eqn:Ex.
      * destruct (IH (delete (join d x) fs)) as (Hc & Hfr & Hres).
        assert (∀ f, f ∈ names →
                  delete (join d x) fs !! join d f = fs !! join d f) as Hkeep.
        { intros f Hf. apply lookup_delete_ne. intros Heq%join_inj. by subst. }
        cbn [result final_fs calls fst snd app forallb is_removal_call andb].
        split; [done|]. split.
        -- intros p. destruct (Hfr p) as [Hp|(? & f & ? & ? & ?)].
           ++ destruct (decide (p = join d x)) as [->|Hne].
              ** right. rewrite Hp, lookup_delete_eq. split; [done|].
                 exists x. split; [left|done].
              ** left. by rewrite Hp, lookup_delete_ne.
           ++ right. split; [done|]. exists f. split; [by right|done].
        -- destruct (result (for_each names (remove_if_invalid d R)
                               (delete (join d x) fs))).
           ++ intros f [->|Hf]%elem_of_cons HfR.
              ** rewrite Ex. split; [done|].
                 destruct (Hfr (join d x)) as [Hp|[Hp _]]; [|done].
                 by rewrite Hp, lookup_delete_eq.
              ** rewrite <- Hkeep by done. by apply Hres.
           ++ destruct Hres as (f & Hf & HfR & Hnf & -> & Hlast).
              exists f. unfold removal_error. rewrite <- !Hkeep by done.
              split; [by right|done].
      * cbn [result final_fs calls fst snd forallb is_removal_call andb].
        split; [done|]. split; [by left|].
        exists x. rewrite Ex. split; [left|done].
      * cbn [result final_fs calls fst snd forallb is_removal_call andb].
        split; [done|]. split; [by left|].
        exists x. rewrite Ex. split; [left|done].
Qed.

End RemovalLoop.

(** ** [_create_dir_path] and [sync_dir] *)

(** [sync_dir] is [_create_dir_path] followed by [sync_dir_resolved], the
    body of the generator from line 162 on.  In this revision
    [_create_dir_path] raises for every name (first theorem below), so a
    run of [sync_dir] ends at line 161.  What the removal and download
    phases do is therefore stated about [sync_dir_resolved] and its parts,
    for every local directory and URL line 161 could bind. *)

Section SyncDir.

Context (net : remote_module).

Implicit Types (self : MCManager) (d : list string) (R : list string).
Implicit Types (fs : gmap (list string) node).

Lemma for_each_yield (evs : list progress) fs :
  for_each evs yield fs = (Returned tt, fs, Yield <$> evs).
Proof.
  induction evs as [|p evs IH]; [done|].
  cbn [for_each]. rewrite bind_unfold. unfold yield at 1, emit.
  by rewrite IH.
Qed.

Lemma remove_invalid_unfold d R fs :
  fs !! d = Some Dir →
  remove_invalid d R fs =
  (result (for_each (entries fs d) (remove_if_invalid d R) fs),
   final_fs (for_each (entries fs d) (remove_if_invalid d R) fs),
   Listdir d :: calls (for_each (entries fs d) (remove_if_invalid d R) fs)).
Proof.
  intros Hd. unfold remove_invalid. rewrite bind_unfold.
  unfold os_listdir. by rewrite Hd.
Qed.

Lemma remove_invalid_no_dir d R fs :
  fs !! d ≠ Some Dir →
  ∃ e, remove_invalid d R fs = (Raised e, fs, [Listdir d]).
Proof.
  intros Hd. unfold remove_invalid. rewrite bind_unfold. unfold os_listdir.
  destruct (fs !! d) as [[c|]|]; [eauto | done | eauto].
Qed.

Lemma download_mods_unfold d url fs :
  download_mods net d url fs =
  match get_file_downloads net url with
  | None =>
      (Raised (ValueError "URLs to download are not set"), fs,
       [GetFileDownloads url])
  | Some jobs =>
      (Returned tt, (download_files net jobs d fs).2,
       GetFileDownloads url :: DownloadFiles jobs d
         :: (Yield <$> (download_files net jobs d fs).1))
  end.
Proof.
  unfold download_mods, remote_get_file_downloads.
  rewrite bind_unfold. unfold bind at 1, emit, ret.
  destruct (get_file_downloads net url) as [jobs|]; [|done].
  rewrite bind_unfold. unfold remote_download_files.
  destruct (download_files net jobs d fs) as [evs fs'].
  by rewrite for_each_yield.
Qed.

Lemma sync_dir_resolved_unfold d url R fs :
  get_filenames net url = Some R →
  sync_dir_resolved net d (Some url) fs =
  match remove_invalid d R fs with
  | (Returned _, fs1, t1) =>
      (result (download_mods net d url fs1),
       final_fs (download_mods net d url fs1),
       GetFilenames url :: t1 ++ calls (download_mods net d url fs1))
  | (Raised e, fs1, t1) => (Raised e, fs1, GetFilenames url :: t1)
  end.
Proof.
  intros HR. unfold sync_dir_resolved, remote_get_filenames.
  rewrite bind_unfold. unfold bind at 1, emit, ret. rewrite HR.
  rewrite bind_unfold.
  by destruct (remove_invalid d R fs) as [[[[]|e] fs1] t1].
Qed.

Lemma sync_dir_resolved_no_listing d url fs :
  get_filenames net url = None →
  sync_dir_resolved net d (Some url) fs =
  (Raised (ValueError "Server filenames are not set"), fs, [GetFilenames url]).
Proof.
  intros HR. unfold sync_dir_resolved, remote_get_filenames.
  rewrite bind_unfold. unfold bind at 1, emit, ret. by rewrite HR.
Qed.

(** The removal phase in full, when nothing stands in its way. *)
Lemma remove_invalid_success d R fs :
  fs !! d = Some Dir →
  (∀ f, f ∈ entries fs d → f ∉ R → is_file (fs !! join d f) = true) →
  remove_invalid d R fs =
  (Returned tt, unlink_all (join d <$> stale R (entries fs d)) fs,
   Listdir d :: unlink_calls d (stale R (entries fs d))).
Proof.
  intros Hd Hfile. rewrite remove_invalid_unfold by done.
  by rewrite removal_loop_success by (done || apply NoDup_entries).
Qed.

Lemma removals_unlink_calls d names :
  removals (unlink_calls d names) = join d <$> names.
Proof. induction names as [|f names IH]; [done|]. cbn. by rewrite <- IH. Qed.

(** A removal phase only lists the directory, unlinks and logs. *)
Lemma removal_calls_observed (t : list event) :
  forallb is_removal_call t = true →
  submitted t = [] ∧ yielded t = [] ∧
  ∀ e, e ∈ t → is_remote_call e = false.
Proof.
  induction t as [|e t IH]; [by split; [|split; [|intros ? ?%elem_of_nil]]|].
  cbn [forallb]. intros [He Ht]%andb_prop. destruct (IH Ht) as (Hs & Hy & Hr).
  destruct e; try discriminate; cbn; (split; [done|split; [done|]]);
    intros e' [->|?]%elem_of_cons; auto.
Qed.

(** *** Path resolution *)

Lemma create_dir_path_raises self remote_dir cfg urls fs :
  remote_config self = Some cfg →
  cfg !! "urls" = Some urls →
  _create_dir_path self remote_dir fs =
    (Raised (ValueError "Invalid remote directory"), fs, []).
Proof.
  intros Hcfg Hurls. unfold _create_dir_path, config_urls.
  by rewrite Hcfg, Hurls.
Qed.

(** Without a manifest, or without a urls section in it, the method raises
    as well: it never returns. *)
Lemma create_dir_path_never_returns self remote_dir fs :
  ∃ e, _create_dir_path self remote_dir fs = (Raised e, fs, []).
Proof.
  destruct (remote_config self) as [cfg|] eqn:Hcfg.
  - destruct (cfg !! "urls") as [urls|] eqn:Hurls.
    + eexists. by eapply create_dir_path_raises.
    + unfold _create_dir_path, config_urls. rewrite Hcfg, Hurls. by eexists.
  - unfold _create_dir_path. rewrite Hcfg. by eexists.
Qed.

(** C1: on a manifest with a urls section, whatever category is asked
    for, and whether or not the section has an entry for it,
    [_create_dir_path] raises [ValueError] before any call to the
    filesystem or the network, and so does [sync_dir]: line 70 looks the
    module object [remote] up in the urls section, where only strings are
    keys.  A listed category is therefore not resolved to its directory
    and URL. *)
Theorem create_dir_path_always_raises self remote_dir cfg urls fs :
  remote_config self = Some cfg →
  cfg !! "urls" = Some urls →
  _create_dir_path self remote_dir fs =
    (Raised (ValueError "Invalid remote directory"), fs, []) ∧
  sync_dir net self remote_dir fs =
    (Raised (ValueError "Invalid remote directory"), fs, []).
Proof.
  intros Hcfg Hurls.
  pose proof (create_dir_path_raises self remote_dir cfg urls fs Hcfg Hurls) as H.
  split; [done|]. unfold sync_dir. by rewrite (bind_raised _ _ _ _ _ _ H).
Qed.

Lemma sync_dir_never_returns self remote_dir fs :
  ∃ e, sync_dir net self remote_dir fs = (Raised e, fs, []).
Proof.
  destruct (create_dir_path_never_returns self remote_dir fs) as [e H].
  exists e. unfold sync_dir. by rewrite (bind_raised _ _ _ _ _ _ H).
Qed.

(** *** The removal phase *)

(** C2 (as amended): once the category is resolved to [d] and the server
    lists the names [R], and provided every entry of [d] whose name is not
    in [R] is a regular file, the removal loop of [sync_dir] returns having
    called [os.remove] on exactly the listed names that are not in [R];
    afterwards an entry of [d] is there if and only if it was there and its
    name is in [R], with the node it had, and no path outside [d] has
    changed.  The run then goes on with the download phase on that
    filesystem. *)
Theorem sync_dir_removes_stale_files d url R fs :
  get_filenames net url = Some R →
  fs !! d = Some Dir →
  (∀ f, f ∈ entries fs d → f ∉ R → is_file (fs !! join d f) = true) →
  ∃ fs1 t1,
    remove_invalid d R fs = (Returned tt, fs1, t1) ∧
    removals t1 = join d <$> stale R (entries fs d) ∧
    (∀ f, fs1 !! join d f =
          if bool_decide (f ∈ R) then fs !! join d f else None) ∧
    (∀ p, child_name d p = None → fs1 !! p = fs !! p) ∧
    sync_dir_resolved net d (Some url) fs =
      (result (download_mods net d url fs1),
       final_fs (download_mods net d url fs1),
       GetFilenames url :: t1 ++ calls (download_mods net d url fs1)).
Proof.
  intros HR Hd Hfile.
  exists (unlink_all (join d <$> stale R (entries fs d)) fs),
         (Listdir d :: unlink_calls d (stale R (entries fs d))).
  pose proof (remove_invalid_success d R fs Hd Hfile) as Hrun.
  split; [done|]. split; [cbn; apply removals_unlink_calls|].
  split; [|split].
  - intros f. rewrite unlink_all_lookup.
    destruct (decide (f ∈ R)) as [HfR|HfR].
    + rewrite (bool_decide_eq_true_2 (f ∈ R)) by done.
      rewrite bool_decide_eq_false_2; [done|].
      intros (g & Hg%join_inj & [_ HgR]%elem_of_stale)%list_elem_of_fmap.
      by subst.
    + rewrite (bool_decide_eq_false_2 (f ∈ R)) by done.
      destruct (fs !! join d f) as [n|] eqn:E; [|by case_bool_decide].
      rewrite bool_decide_eq_true_2; [done|].
      apply list_elem_of_fmap. exists f. split; [done|].
      apply elem_of_stale. split; [|done]. apply elem_of_entries. by rewrite E.
  - intros p Hp. rewrite unlink_all_lookup.
    rewrite bool_decide_eq_false_2; [done|].
    intros (g & -> & _)%list_elem_of_fmap. by rewrite child_name_join in Hp.
  - rewrite (sync_dir_resolved_unfold d url R fs HR). by rewrite Hrun.
Qed.

(** *** The download phase *)

(** C3 (as amended): once the category is resolved and the removal phase
    has returned, [sync_dir] hands [remote.download_files] the whole list
    that [remote.get_file_downloads] returned for the category, in one
    call, whatever the local directory contains: the names already present
    locally are submitted again. *)
Theorem sync_dir_submits_whole_listing d url R jobs fs :
  get_filenames net url = Some R →
  get_file_downloads net url = Some jobs →
  result (remove_invalid d R fs) = Returned tt →
  submitted (calls (sync_dir_resolved net d (Some url) fs)) = [jobs] ∧
  DownloadFiles jobs d ∈ calls (sync_dir_resolved net d (Some url) fs).
Proof.
  intros HR Hjobs Hrm.
  rewrite (sync_dir_resolved_unfold d url R fs HR).
  destruct (fs !! d) as [[c|]|] eqn:Hd.
  1,3: destruct (remove_invalid_no_dir d R fs) as [e He]; [by rewrite Hd|];
       by rewrite He in Hrm.
  rewrite remove_invalid_unfold in * by done.
  destruct (removal_loop_run d R (entries fs d) fs (NoDup_entries _ _))
    as (Hc & _ & _).
  apply removal_calls_observed in Hc as (Hs & _ & _).
  cbn [result fst] in Hrm. rewrite Hrm.
  rewrite download_mods_unfold, Hjobs. cbn [calls snd]. split.
  - cbn. rewrite submitted_app, Hs. cbn.
    f_equal. induction (download_files net jobs d _).1; [done|]. by cbn.
  - right. right. apply elem_of_app. right. right. left.
Qed.

(** *** Missing listings *)

(** C4 (as amended): for a resolved category whose URL is present, a [None]
    from [remote.get_filenames] makes [sync_dir] raise [ValueError] before
    it lists or changes the local directory; a [None] from
    [remote.get_file_downloads] makes it raise [ValueError] once the
    removal phase is over, with the removals done and nothing submitted
    for download. *)
Theorem sync_dir_raises_without_listing d url fs :
  (get_filenames net url = None →
   sync_dir_resolved net d (Some url) fs =
     (Raised (ValueError "Server filenames are not set"), fs,
      [GetFilenames url])) ∧
  (∀ R fs1 t1,
     get_filenames net url = Some R →
     get_file_downloads net url = None →
     remove_invalid d R fs = (Returned tt, fs1, t1) →
     sync_dir_resolved net d (Some url) fs =
       (Raised (ValueError "URLs to download are not set"), fs1,
        GetFilenames url :: t1 ++ [GetFileDownloads url])).
Proof.
  split; [apply sync_dir_resolved_no_listing|].
  intros R fs1 t1 HR Hjobs Hrm.
  rewrite (sync_dir_resolved_unfold d url R fs HR), Hrm.
  by rewrite download_mods_unfold, Hjobs.
Qed.

(** *** Removals that fail *)

(** The removal loop on a listing in which [f] is the first entry that
    [os.remove] refuses: the unlisted files before [f] are unlinked, the
    loop ends at [f], and what comes after [f] is never looked at. *)
Lemma removal_loop_stops d R before f after fs :
  NoDup (before ++ f :: after) →
  f ∉ R →
  fs !! join d f = Some Dir →
  (∀ h, h ∈ before → h ∉ R → is_file (fs !! join d h) = true) →
  for_each (before ++ f :: after) (remove_if_invalid d R) fs =
  (Raised (IsADirectoryError (join d f)),
   unlink_all (join d <$> stale R before) fs,
   unlink_calls d (stale R before) ++ [Remove (join d f)]).
Proof.
  revert fs. induction before as [|x before IH]; intros fs Hnd HfR Hf Hfiles.
  - cbn [app for_each]. rewrite bind_unfold, remove_if_invalid_unfold.
    rewrite bool_decide_eq_false_2 by done. unfold removal_error.
    by rewrite Hf.
  - cbn [app] in *. apply NoDup_cons in Hnd as [Hx Hnd].
    cbn [for_each]. rewrite bind_unfold, remove_if_invalid_unfold.
    destruct (decide (x ∈ R)) as [HxR|HxR].
    + rewrite bool_decide_eq_true_2 by done. rewrite stale_cons_skip by done.
      rewrite IH; [done..|]. intros h Hh. apply Hfiles. by right.
    + rewrite bool_decide_eq_false_2 by done. rewrite stale_cons_keep by done.
      specialize (Hfiles x (list_elem_of_here _ _) HxR) as Hxf.
      destruct (fs !! join d x) as [[c|]|] eqn:Ex; try discriminate.
      assert (∀ h, h ∈ before ++ f :: after →
                delete (join d x) fs !! join d h = fs !! join d h) as Hkeep.
      { intros h Hh. apply lookup_delete_ne. intros Heq%join_inj. by subst. }
      rewrite IH; [done|done|done| |].
      * rewrite Hkeep; [done|]. apply elem_of_app. right. left.
      * intros h Hh HhR. rewrite Hkeep.
        -- apply Hfiles; [by right|done].
        -- apply elem_of_app. by left.
Qed.

(** Where a listing first meets an unlisted entry that is no regular
    file. *)
Lemma first_refused_split d R names fs g :
  g ∈ names → g ∉ R → is_file (fs !! join d g) = false →
  ∃ before f after,
    names = before ++ f :: after ∧ (f ∉ R) ∧
    is_file (fs !! join d f) = false ∧
    ∀ h, h ∈ before → h ∉ R → is_file (fs !! join d h) = true.
Proof.
  induction names as [|x names IH]; [by intros ?%elem_of_nil|].
  intros Hg HgR Hnf.
  destruct (decide (x ∈ R)) as [HxR|HxR].
  - apply elem_of_cons in Hg as [->|Hg]; [done|].
    destruct (IH Hg HgR Hnf) as (before & f & after & -> & ? & ? & Hb).
    exists (x :: before), f, after. split; [done|]. split; [done|].
    split; [done|]. intros h [->|Hh]%elem_of_cons; [done|by apply Hb].
  - destruct (is_file (fs !! join d x)) eqn:Hx.
    + apply elem_of_cons in Hg as [->|Hg]; [congruence|].
      destruct (IH Hg HgR Hnf) as (before & f & after & -> & ? & ? & Hb).
      exists (x :: before), f, after. split; [done|]. split; [done|].
      split; [done|]. intros h [->|Hh]%elem_of_cons; [done|by apply Hb].
    + exists [], x, names. split; [done|]. split; [done|]. split; [done|].
      by intros h ?%elem_of_nil.
Qed.

(** What is listed from the refused entry on is as it was. *)
Lemma unlink_before_frame d R before f after fs h :
  NoDup (before ++ f :: after) →
  h ∈ f :: after →
  unlink_all (join d <$> stale R before) fs !! join d h = fs !! join d h.
Proof.
  intros Hnd Hh. rewrite unlink_all_lookup.
  rewrite bool_decide_eq_false_2; [done|].
  intros (k & Hk%join_inj & [Hkb _]%elem_of_stale)%list_elem_of_fmap.
  subst k. apply NoDup_app in Hnd as (_ & Hdisj & _). by apply (Hdisj h).
Qed.

(** C5 (as amended): when an entry of the resolved directory that the
    server does not list is a sub-directory, [os.remove] raises on it and
    the exception leaves [sync_dir].  The run ends at the first such entry
    [f] of the listing: the unlisted regular files listed before [f] have
    been unlinked, [f] and every entry listed after it are as they were,
    and the calls of the run stop at [os.remove] of [f], so that the
    download list is not requested, nothing is submitted for download and
    nothing is yielded.  The loop does so in whatever order the entries of
    the directory are listed. *)
Theorem failed_removal_aborts_sync d url R g fs :
  get_filenames net url = Some R →
  fs !! d = Some Dir →
  fs !! join d g = Some Dir →
  g ∉ R →
  (∃ before f after,
     entries fs d = before ++ f :: after ∧
     (f ∉ R) ∧ fs !! join d f = Some Dir ∧
     (∀ h, h ∈ before → h ∉ R → is_file (fs !! join d h) = true) ∧
     sync_dir_resolved net d (Some url) fs =
       (Raised (IsADirectoryError (join d f)),
        unlink_all (join d <$> stale R before) fs,
        GetFilenames url :: Listdir d
          :: unlink_calls d (stale R before) ++ [Remove (join d f)]) ∧
     (∀ h, h ∈ f :: after →
        final_fs (sync_dir_resolved net d (Some url) fs) !! join d h
          = fs !! join d h)) ∧
  (∀ names before f after,
     names ≡ₚ entries fs d →
     names = before ++ f :: after →
     f ∉ R →
     fs !! join d f = Some Dir →
     (∀ h, h ∈ before → h ∉ R → is_file (fs !! join d h) = true) →
     for_each names (remove_if_invalid d R) fs =
       (Raised (IsADirectoryError (join d f)),
        unlink_all (join d <$> stale R before) fs,
        unlink_calls d (stale R before) ++ [Remove (join d f)]) ∧
     ∀ h, h ∈ f :: after →
       unlink_all (join d <$> stale R before) fs !! join d h
         = fs !! join d h).
Proof.
  intros HR Hd Hg HgR. split.
  - assert (g ∈ entries fs d) as Hgin by (apply elem_of_entries; rewrite Hg; eauto).
    destruct (first_refused_split d R (entries fs d) fs g Hgin HgR)
      as (before & f & after & Hsplit & HfR & Hnf & Hfiles);
      [by rewrite Hg|].
    assert (fs !! join d f = Some Dir) as Hf.
    { assert (f ∈ entries fs d) as [n Hn]%elem_of_entries
        by (rewrite Hsplit; apply elem_of_app; right; left).
      rewrite Hn in Hnf |- *. by destruct n. }
    pose proof (NoDup_entries fs d) as Hnd. rewrite Hsplit in Hnd.
    exists before, f, after. split; [done|]. split; [done|]. split; [done|].
    split; [done|].
    assert (sync_dir_resolved net d (Some url) fs =
            (Raised (IsADirectoryError (join d f)),
             unlink_all (join d <$> stale R before) fs,
             GetFilenames url :: Listdir d
               :: unlink_calls d (stale R before) ++ [Remove (join d f)]))
      as Hrun.
    { rewrite (sync_dir_resolved_unfold d url R fs HR).
      rewrite remove_invalid_unfold by done. rewrite Hsplit.
      by rewrite (removal_loop_stops d R before f after fs). }
    split; [done|]. rewrite Hrun. cbn [final_fs fst snd].
    intros h Hh. by eapply unlink_before_frame.
  - intros names before f after Hperm -> HfR Hf Hfiles.
    assert (NoDup (before ++ f :: after)) as Hnd
      by (rewrite Hperm; apply NoDup_entries).
    split; [by apply removal_loop_stops|].
    intros h Hh. by eapply unlink_before_frame.
Qed.

(** *** A category that is switched off *)

(** C6: for a category whose URL in the manifest is [None], a run of
    [sync_dir] does not end as an exhausted generator with an empty
    sequence: the test of line 70 makes [_create_dir_path] raise, and the
    run ends with [ValueError] at line 161.  No tuple is yielded; nothing
    is created, deleted or written, and no call leaves the method. *)
Theorem sync_dir_disabled_category_raises self name cfg urls fs :
  remote_config self = Some cfg →
  cfg !! "urls" = Some urls →
  urls !! name = Some None →
  sync_dir net self name fs =
    (Raised (ValueError "Invalid remote directory"), fs, []) ∧
  result (sync_dir net self name fs) ≠ Returned tt ∧
  yielded (calls (sync_dir net self name fs)) = [] ∧
  final_fs (sync_dir net self name fs) = fs.
Proof.
  intros Hcfg Hurls _.
  assert (sync_dir net self name fs =
          (Raised (ValueError "Invalid remote directory"), fs, [])) as ->.
  { unfold sync_dir.
    by rewrite (bind_raised _ _ _ _ _ _
                  (create_dir_path_raises self name cfg urls fs Hcfg Hurls)). }
  done.
Qed.

(** *** Order of the two phases *)

Lemma rpd_no_dispatch t : submitted t = [] → removals_precede_downloads t = true.
Proof.
  induction t as [|e t IH]; [done|]. destruct e; cbn; try done. all: exact IH.
Qed.

Lemma rpd_app t1 t2 :
  submitted t1 = [] →
  removals_precede_downloads (t1 ++ t2) = removals_precede_downloads t2.
Proof.
  induction t1 as [|e t1 IH]; [done|]. destruct e; cbn; try done. all: exact IH.
Qed.

Lemma remove_invalid_calls d R fs :
  submitted (calls (remove_invalid d R fs)) = [] ∧
  yielded (calls (remove_invalid d R fs)) = [].
Proof.
  destruct (fs !! d) as [[c|]|] eqn:Hd.
  1,3: destruct (remove_invalid_no_dir d R fs) as [e He]; [by rewrite Hd|];
       by rewrite He.
  rewrite remove_invalid_unfold by done.
  destruct (removal_loop_run d R (entries fs d) fs (NoDup_entries _ _))
    as (Hc & _ & _).
  by apply removal_calls_observed in Hc as (Hs & Hy & _).
Qed.

Lemma download_mods_ordered d url fs :
  removals_precede_downloads (calls (download_mods net d url fs)) = true.
Proof.
  rewrite download_mods_unfold.
  destruct (get_file_downloads net url) as [jobs|]; [|done].
  cbn. induction (download_files net jobs d fs).1; [done|]. by cbn.
Qed.

(** When the removal phase returns, no entry of the directory is left
    whose name the server does not list. *)
Lemma remove_invalid_leaves_listed d R fs fs1 t1 :
  remove_invalid d R fs = (Returned tt, fs1, t1) →
  ∀ f, f ∈ entries fs1 d → f ∈ R.
Proof.
  intros Hrun f Hf.
  destruct (fs !! d) as [[c|]|] eqn:Hd.
  1,3: destruct (remove_invalid_no_dir d R fs) as [e He]; [by rewrite Hd|];
       by rewrite He in Hrun.
  rewrite remove_invalid_unfold in Hrun by done.
  destruct (removal_loop_run d R (entries fs d) fs (NoDup_entries _ _))
    as (_ & Hfr & Hres).
  injection Hrun as Hres' Hfs _. rewrite Hres' in Hres. rewrite Hfs in *.
  apply elem_of_entries in Hf as [n Hn].
  destruct (decide (f ∈ R)) as [|HfR]; [done|exfalso].
  destruct (Hfr (join d f)) as [Hsame|[Hnone _]]; [|congruence].
  destruct (Hres f) as [_ Hgone]; [|done|congruence].
  apply elem_of_entries. rewrite <- Hsame, Hn. eauto.
Qed.

(** C9: in every run of [sync_dir], and of its body on any resolved
    directory and URL, no [os.remove] call comes after the call to
    [remote.download_files].  The download phase starts on the filesystem
    the removal loop has left when it returned, in which every entry of
    the directory bears a name of the server listing; when the loop
    raises, the run ends there and nothing is submitted. *)
Theorem deletions_precede_downloads self remote_dir d uo url R fs :
  removals_precede_downloads (calls (sync_dir net self remote_dir fs)) = true ∧
  removals_precede_downloads (calls (sync_dir_resolved net d uo fs)) = true ∧
  (get_filenames net url = Some R →
   match remove_invalid d R fs with
   | (Returned _, fs1, t1) =>
       (∀ f, f ∈ entries fs1 d → f ∈ R) ∧
       sync_dir_resolved net d (Some url) fs =
         (result (download_mods net d url fs1),
          final_fs (download_mods net d url fs1),
          GetFilenames url :: t1 ++ calls (download_mods net d url fs1))
   | (Raised e, fs1, t1) =>
       sync_dir_resolved net d (Some url) fs =
         (Raised e, fs1, GetFilenames url :: t1) ∧
       submitted (GetFilenames url :: t1) = []
   end).
Proof.
  split; [|split].
  - destruct (sync_dir_never_returns self remote_dir fs) as [e ->]. done.
  - destruct uo as [u|]; [|done].
    destruct (get_filenames net u) as [R'|] eqn:HR.
    + rewrite (sync_dir_resolved_unfold d u R' fs HR).
      destruct (remove_invalid_calls d R' fs) as [Hs _].
      destruct (remove_invalid d R' fs) as [[[[]|e] fs1] t1];
        cbn [calls snd] in *.
      * change (GetFilenames u :: t1 ++ ?t) with ((GetFilenames u :: t1) ++ t).
        rewrite rpd_app by done. apply download_mods_ordered.
      * by apply rpd_no_dispatch.
    + by rewrite sync_dir_resolved_no_listing.
  - intros HR. rewrite (sync_dir_resolved_unfold d url R fs HR).
    destruct (remove_invalid_calls d R fs) as [Hs _].
    destruct (remove_invalid d R fs) as [[[[]|e] fs1] t1] eqn:Hrun;
      cbn [calls snd] in *.
    + split; [|done]. by eapply remove_invalid_leaves_listed.
    + done.
Qed.

End SyncDir.

(** ** [_create_file_path] and [sync_file] *)

Section SyncFile.

Context (net : remote_module).

Implicit Types (self : MCManager) (p : list string).
Implicit Types (fs : gmap (list string) node).

Lemma create_file_path_unlisted self name cfg urls fs :
  remote_config self = Some cfg →
  cfg !! "urls" = Some urls →
  urls !! name = None →
  _create_file_path self name fs =
  (Raised (ValueError "Invalid remote file"), fs, []).
Proof.
  intros Hcfg Hurls Hu. unfold _create_file_path, config_urls, py_in.
  rewrite Hcfg, Hurls. unfold bind, ret.
  rewrite bool_decide_eq_false_2; [done|]. rewrite Hu. by intros [? ?].
Qed.

Lemma create_file_path_run self name cfg urls u fs :
  remote_config self = Some cfg →
  cfg !! "urls" = Some urls →
  name = "options" ∨ name = "servers" →
  urls !! name = Some u →
  find (λ q, is_file (fs !! q)) (prefixes (work_dir self)) = None →
  _create_file_path self name fs =
  (Returned (local_file self name, u), with_dirs fs (work_dir self),
   [Mkdir (work_dir self); Log DEBUG "Remote file URL: %s"]).
Proof.
  intros Hcfg Hurls Hname Hu Hfree.
  unfold _create_file_path, config_urls, local_file, subscript.
  rewrite Hcfg, Hurls, bind_ret. cbn [py_in py_eq].
  rewrite bool_decide_eq_true_2 by (rewrite Hu; eauto). cbn [negb].
  destruct Hname as [-> | ->].
  - change (bool_decide ("options" = "options")) with true. cbv iota.
    rewrite bind_ret, dirname_join. unfold bind, os_makedirs, ret.
    rewrite Hfree. cbv beta iota. by rewrite Hu.
  - change (bool_decide ("servers" = "options")) with false.
    change (bool_decide ("servers" = "servers")) with true. cbv iota.
    rewrite bind_ret, dirname_join. unfold bind, os_makedirs, ret.
    rewrite Hfree. cbv beta iota. by rewrite Hu.
Qed.

(** Every call of [_create_file_path] is a directory creation or a log
    line. *)
Lemma create_file_path_calls self name fs e :
  e ∈ calls (_create_file_path self name fs) →
  (∃ q, e = Mkdir q) ∨ (∃ l m, e = Log l m).
Proof.
  unfold _create_file_path, config_urls, subscript.
  destruct (remote_config self) as [cfg|]; [|by intros ?%elem_of_nil].
  destruct (cfg !! "urls") as [urls|]; [|by intros ?%elem_of_nil].
  unfold bind at 1, ret at 1.
  destruct (negb (py_in (PyStr name) urls)); [by intros ?%elem_of_nil|].
  set (pick := if py_eq (PyStr name) "options" then _ else _).
  rewrite bind_unfold.
  assert (∃ o, pick fs = (o, fs, [])) as [o Hpick].
  { subst pick. repeat case_match; by eexists. }
  rewrite Hpick. destruct o as [lp|err]; [|by intros ?%elem_of_nil].
  cbn [app]. rewrite bind_unfold. unfold os_makedirs.
  destruct (find _ _).
  { intros ->%list_elem_of_singleton. left. eauto. }
  cbn [result final_fs calls fst snd]. unfold bind at 1, ret at 1.
  destruct (urls !! name) as [u|]; cbn.
  - intros [->|[->|?%elem_of_nil]%elem_of_cons]%elem_of_cons; [left|right|done];
      eauto.
  - intros [->|?%elem_of_nil]%elem_of_cons; [left|done]; eauto.
Qed.

(** Lines 196-209 for a URL that is present and a record the server
    has: the destination is unlinked when it exists, then downloaded. *)
Lemma sync_file_resolved_run p url j fs :
  get_file_download net url = Some j →
  fs !! p ≠ Some Dir →
  sync_file_resolved net p (Some url) fs =
  (Returned tt, (download net j p (delete p fs)).2,
   [GetFileDownload url; Exists p]
     ++ unlink_existing (bool_decide (is_Some (fs !! p))) p
     ++ [Download j p]).
Proof.
  intros Hj Hnd. unfold sync_file_resolved, remote_get_file_download.
  rewrite bind_unfold. unfold bind at 1, emit, ret. rewrite Hj.
  rewrite bind_unfold. unfold os_path_exists.
  cbn [result final_fs calls fst snd].
  destruct (fs !! p) as [[c|]|] eqn:Hp; [|done|].
  - rewrite bool_decide_eq_true_2 by eauto.
    unfold bind, os_remove, log, emit, remote_download. rewrite Hp.
    by destruct (download net j p (delete p fs)).
  - rewrite bool_decide_eq_false_2 by (by intros [? ?]).
    unfold bind, ret, remote_download. rewrite delete_id by done.
    by destruct (download net j p fs).
Qed.

(** A download call in a run of lines 196-209 is the last call of the
    run, and is made on a filesystem without the destination. *)
Lemma sync_file_resolved_transfer p uo fs j q :
  Download j q ∈ calls (sync_file_resolved net p uo fs) →
  q = p ∧
  ∃ t0, calls (sync_file_resolved net p uo fs) = t0 ++ [Download j p] ∧
        final_fs (sync_file_resolved net p uo fs) =
          (download net j p (delete p fs)).2 ∧
        (is_Some (fs !! p) → Remove p ∈ t0).
Proof.
  destruct uo as [url|].
  2: { cbn. by intros [?|?%elem_of_nil]%elem_of_cons. }
  destruct (get_file_download net url) as [j'|] eqn:Hj.
  2: { unfold sync_file_resolved, remote_get_file_download.
       rewrite bind_unfold. unfold bind at 1, emit, ret. rewrite Hj. cbn.
       by intros [?|?%elem_of_nil]%elem_of_cons. }
  destruct (decide (fs !! p = Some Dir)) as [Hd|Hd].
  { unfold sync_file_resolved, remote_get_file_download.
    rewrite bind_unfold. unfold bind at 1, emit, ret. rewrite Hj.
    rewrite bind_unfold. unfold os_path_exists.
    cbn [result final_fs calls fst snd].
    rewrite bool_decide_eq_true_2 by (rewrite Hd; eauto).
    unfold bind, os_remove. rewrite Hd. cbn.
    intros [?|[?|[?|?%elem_of_nil]%elem_of_cons]%elem_of_cons]%elem_of_cons;
      done. }
  rewrite (sync_file_resolved_run p url j' fs Hj Hd). cbn [calls final_fs fst snd].
  intros Hin.
  assert (Download j q = Download j' p) as Heq.
  { apply elem_of_app in Hin as [Hin|Hin].
    - by apply elem_of_cons in Hin as [?|[?|?%elem_of_nil]%elem_of_cons].
    - apply elem_of_app in Hin as [Hin|Hin].
      + unfold unlink_existing in Hin. case_bool_decide.
        * by apply elem_of_cons in Hin as [?|[?|?%elem_of_nil]%elem_of_cons].
        * by apply elem_of_nil in Hin.
      + by apply list_elem_of_singleton in Hin. }
  injection Heq as <- ->. split; [done|].
  eexists. split; [by rewrite app_assoc|]. split; [done|].
  intros Hsome. rewrite bool_decide_eq_true_2 by done.
  apply elem_of_app. right. left.
Qed.

(** [_create_file_path] removes nothing. *)
Lemma create_file_path_keeps self name fs q :
  is_Some (fs !! q) →
  is_Some (final_fs (_create_file_path self name fs) !! q).
Proof.
  intros Hq. unfold _create_file_path, config_urls, subscript.
  destruct (remote_config self) as [cfg|]; [|done].
  destruct (cfg !! "urls") as [urls|]; [|done].
  rewrite bind_ret.
  destruct (negb (py_in (PyStr name) urls)); [done|].
  set (pick := if py_eq (PyStr name) "options" then _ else _).
  rewrite bind_unfold.
  assert (∃ o, pick fs = (o, fs, [])) as [o Hpick].
  { subst pick. repeat case_match; by eexists. }
  rewrite Hpick. destruct o as [lp|err]; [|done].
  cbn [final_fs fst snd]. rewrite bind_unfold. unfold os_makedirs.
  destruct (find _ _); [done|].
  cbn [final_fs fst snd]. rewrite bind_ret.
  assert (is_Some (with_dirs fs (dirname lp) !! q)) as Hq'.
  { rewrite with_dirs_lookup. by case_bool_decide. }
  destruct (urls !! name) as [u|]; by cbn.
Qed.

Lemma find_agree {X} (h h' : X → bool) (l : list X) :
  (∀ x, x ∈ l → h x = h' x) → find h l = find h' l.
Proof.
  induction l as [|x l IH]; [done|]. intros H. cbn.
  rewrite <- (H x) by left. destruct (h x); [done|].
  apply IH. intros y Hy. apply H. by right.
Qed.

Lemma local_file_below self name :
  ∃ x, local_file self name = join (work_dir self) x.
Proof. unfold local_file. by eexists. Qed.

(** Replacing the content of a single file changes neither the outcome of
    the directory creation nor what is left once the file is unlinked. *)
Lemma overwrite_invisible self name fs c :
  let p := local_file self name in
  find (λ q, is_file (<[p := File c]> fs !! q)) (prefixes (work_dir self)) =
    find (λ q, is_file (fs !! q)) (prefixes (work_dir self)) ∧
  delete p (with_dirs (<[p := File c]> fs) (work_dir self)) =
    delete p (with_dirs fs (work_dir self)).
Proof.
  intros p. destruct (local_file_below self name) as [x Hx]. fold p in Hx.
  assert (p ∉ prefixes (work_dir self)) as Hp.
  { intros H%prefixes_length. rewrite Hx in H. unfold join in H.
    rewrite length_app in H. simpl in H. lia. }
  split.
  - apply find_agree. intros q Hq. rewrite lookup_insert_ne; [done|].
    intros ->. done.
  - apply map_eq. intros q. destruct (decide (q = p)) as [->|Hne].
    + by rewrite !lookup_delete_eq.
    + rewrite !lookup_delete_ne by done. rewrite !with_dirs_lookup.
      by rewrite lookup_insert_ne.
Qed.

(** *** A single file the manifest has no URL for *)

(** C7 (as amended): for a single file name, when the urls section has no
    entry for the name, [sync_file] raises [ValueError] before any call to
    the filesystem or the network; when the entry is there and its value
    is [None], [sync_file] makes sure the working directory exists, logs a
    warning and returns normally, with no request to the server, no
    removal and no download. *)
Theorem sync_file_without_url self name cfg urls fs :
  remote_config self = Some cfg →
  cfg !! "urls" = Some urls →
  name = "options" ∨ name = "servers" →
  (urls !! name = None →
   sync_file net self name fs =
     (Raised (ValueError "Invalid remote file"), fs, [])) ∧
  (urls !! name = Some None →
   find (λ q, is_file (fs !! q)) (prefixes (work_dir self)) = None →
   sync_file net self name fs =
     (Returned tt, with_dirs fs (work_dir self),
      [Mkdir (work_dir self); Log DEBUG "Remote file URL: %s";
       Log WARNING "Remote file '%s' is not set"])).
Proof.
  intros Hcfg Hurls Hname. split.
  - intros Hu. unfold sync_file.
    by rewrite (bind_raised _ _ _ _ _ _
                  (create_file_path_unlisted self name cfg urls fs Hcfg Hurls Hu)).
  - intros Hu Hfree. unfold sync_file.
    by rewrite (bind_returned _ _ _ _ _ _
                  (create_file_path_run self name cfg urls None fs
                     Hcfg Hurls Hname Hu Hfree)).
Qed.

(** *** A single file the server has *)

(** C8: for a single file name whose URL is in the manifest and for which
    the server has a record, [sync_file] returns after exactly one
    [remote.download] of that record to the local path, made after the
    existing file, if any, was unlinked; no other path is unlinked and no
    listing is compared.  The whole run is the same whatever the content
    of the existing file, so a second run repeats the download. *)
Theorem sync_file_always_refetches self name cfg urls url j fs :
  remote_config self = Some cfg →
  cfg !! "urls" = Some urls →
  name = "options" ∨ name = "servers" →
  urls !! name = Some (Some url) →
  get_file_download net url = Some j →
  find (λ q, is_file (fs !! q)) (prefixes (work_dir self)) = None →
  fs !! local_file self name ≠ Some Dir →
  sync_file net self name fs =
    (Returned tt,
     (download net j (local_file self name)
        (delete (local_file self name) (with_dirs fs (work_dir self)))).2,
     [Mkdir (work_dir self); Log DEBUG "Remote file URL: %s";
      GetFileDownload url; Exists (local_file self name)]
       ++ unlink_existing (bool_decide (is_Some (fs !! local_file self name)))
                          (local_file self name)
       ++ [Download j (local_file self name)]) ∧
  (∀ c c',
     sync_file net self name (<[local_file self name := File c]> fs) =
     sync_file net self name (<[local_file self name := File c']> fs)).
Proof.
  intros Hcfg Hurls Hname Hu Hj.
  assert (∀ fs0,
    find (λ q, is_file (fs0 !! q)) (prefixes (work_dir self)) = None →
    fs0 !! local_file self name ≠ Some Dir →
    sync_file net self name fs0 =
      (Returned tt,
       (download net j (local_file self name)
          (delete (local_file self name) (with_dirs fs0 (work_dir self)))).2,
       [Mkdir (work_dir self); Log DEBUG "Remote file URL: %s";
        GetFileDownload url; Exists (local_file self name)]
         ++ unlink_existing
              (bool_decide (is_Some (fs0 !! local_file self name)))
              (local_file self name)
         ++ [Download j (local_file self name)])) as Hrun.
  { intros fs0 Hfree Hnd. unfold sync_file.
    rewrite (bind_returned _ _ _ _ _ _
               (create_file_path_run self name cfg urls (Some url) fs0
                  Hcfg Hurls Hname Hu Hfree)).
    destruct (local_file_below self name) as [x Hx].
    assert (with_dirs fs0 (work_dir self) !! local_file self name
            = fs0 !! local_file self name) as Hsame
      by (rewrite Hx; apply with_dirs_below).
    rewrite (sync_file_resolved_run _ url j); [|done|by rewrite Hsame].
    by rewrite Hsame. }
  intros Hfree Hnd. split; [by apply Hrun|].
  intros c c'.
  destruct (overwrite_invisible self name fs c) as [Hf Hd].
  destruct (overwrite_invisible self name fs c') as [Hf' Hd'].
  cbv zeta in *.
  rewrite !Hrun; rewrite ?lookup_insert_eq; try done; try congruence.
  by rewrite Hd, Hd'.
Qed.

(** *** The order of unlinking and download *)

(** C10: in every run of [sync_file] that calls [remote.download], that
    call is the last one of the run and is made on a filesystem in which
    the destination does not exist: a file that was there at the start has
    been unlinked by an earlier [os.remove].  What is at the destination
    in the end is what the download put there; when the download writes
    nothing, nothing is left of the previous copy. *)
Theorem sync_file_unlinks_before_download self name fs j p :
  Download j p ∈ calls (sync_file net self name fs) →
  ∃ fs1 t1,
    fs1 !! p = None ∧
    calls (sync_file net self name fs) = t1 ++ [Download j p] ∧
    final_fs (sync_file net self name fs) = (download net j p fs1).2 ∧
    (is_Some (fs !! p) → Remove p ∈ t1) ∧
    ((download net j p fs1).2 !! p = fs1 !! p →
     final_fs (sync_file net self name fs) !! p = None).
Proof.
  unfold sync_file. rewrite bind_unfold.
  pose proof (create_file_path_calls self name fs) as Hcalls.
  pose proof (create_file_path_keeps self name fs p) as Hkeep.
  destruct (_create_file_path self name fs) as [[[[lp u]|e] fs0] t0];
    cbn [calls final_fs fst snd] in *.
  - intros [Hin|Hin]%elem_of_app.
    { apply Hcalls in Hin as [[? ?]|(? & ? & ?)]; done. }
    apply sync_file_resolved_transfer in Hin as (-> & t' & Ht & Hfin & Hrm).
    exists (delete lp fs0), (t0 ++ t').
    split; [apply lookup_delete_eq|].
    split; [by rewrite Ht, app_assoc|]. split; [done|]. split.
    + intros Hsome. apply elem_of_app. right. apply Hrm. by apply Hkeep.
    + rewrite Hfin. intros ->. apply lookup_delete_eq.
  - intros Hin. apply Hcalls in Hin as [[? ?]|(? & ? & ?)]; done.
Qed.

End SyncFile.

(** ** Runs on the concrete installations *)

Import Scenario.

Lemma entries_disk_plain : entries disk_plain mods_dir = ["sodium.jar"; "a.jar"].
Proof. vm_compute. reflexivity. Qed.

Lemma entries_disk_with_subdir :
  entries disk_with_subdir mods_dir = ["libs"; "sodium.jar"; "a.jar"].
Proof. vm_compute. reflexivity. Qed.

(** C1, on an installation whose manifest lists the mods category: the
    category is not resolved, the call raises. *)
Lemma create_dir_path_always_raises_witness :
  manifest_urls !! "mods" = Some (Some mods_url) ∧
  _create_dir_path manager "mods" disk_plain =
    (Raised (ValueError "Invalid remote directory"), disk_plain, []) ∧
  sync_dir server manager "mods" disk_plain =
    (Raised (ValueError "Invalid remote directory"), disk_plain, []).
Proof.
  split; [reflexivity|].
  eapply (create_dir_path_always_raises server manager "mods"); reflexivity.
Defined.

(** C2, the claim as stated fails.  Lines 162-182 are run on the mods
    directory, which holds a sub-directory [libs] and an outdated file
    [a.jar] that the server does not list: the run ends at [os.remove] of
    the sub-directory, which is still there afterwards, and so is the
    outdated file, which the listing put after it. *)
Lemma stale_entries_survive_subdirectory :
  "libs" ∈ entries disk_with_subdir mods_dir ∧ ("libs" ∉ listed) ∧
  "a.jar" ∈ entries disk_with_subdir mods_dir ∧ ("a.jar" ∉ listed) ∧
  get_filenames server mods_url = Some listed ∧
  result (sync_dir_resolved server mods_dir (Some mods_url) disk_with_subdir)
    = Raised (IsADirectoryError (join mods_dir "libs")) ∧
  final_fs (sync_dir_resolved server mods_dir (Some mods_url) disk_with_subdir)
    !! join mods_dir "libs" = Some Dir ∧
  final_fs (sync_dir_resolved server mods_dir (Some mods_url) disk_with_subdir)
    !! join mods_dir "a.jar" = Some (File "outdated").
Proof.
  rewrite entries_disk_with_subdir.
  repeat split; try (vm_compute; reflexivity).
  all: apply (bool_decide_unpack _); vm_compute; exact I.
Qed.

(** C2 as amended, on a directory that holds only regular files. *)
Lemma sync_dir_removes_stale_files_witness :
  ∃ fs1 t1,
    remove_invalid mods_dir listed disk_plain = (Returned tt, fs1, t1) ∧
    removals t1 = join mods_dir <$> stale listed (entries disk_plain mods_dir) ∧
    (∀ f, fs1 !! join mods_dir f =
          if bool_decide (f ∈ listed) then disk_plain !! join mods_dir f
          else None) ∧
    (∀ p, child_name mods_dir p = None → fs1 !! p = disk_plain !! p) ∧
    sync_dir_resolved server mods_dir (Some mods_url) disk_plain =
      (result (download_mods server mods_dir mods_url fs1),
       final_fs (download_mods server mods_dir mods_url fs1),
       GetFilenames mods_url
         :: t1 ++ calls (download_mods server mods_dir mods_url fs1)).
Proof.
  apply (sync_dir_removes_stale_files server mods_dir mods_url listed disk_plain).
  - reflexivity.
  - vm_compute. reflexivity.
  - intros f Hf HfR. rewrite entries_disk_plain in Hf.
    apply elem_of_cons in Hf as [->|Hf]; [exfalso; apply HfR; left|].
    apply elem_of_cons in Hf as [->|Hf]; [vm_compute; reflexivity|].
    by apply elem_of_nil in Hf.
Defined.

(** C3, the claim as stated fails.  Lines 162-182 are run on the mods
    directory, where [sodium.jar] is installed under the name the server
    lists: it is submitted for download again, together with the missing
    [lithium.jar]. *)
Lemma installed_mod_is_submitted_again :
  "sodium.jar" ∈ entries disk_plain mods_dir ∧
  submitted (calls (sync_dir_resolved server mods_dir (Some mods_url) disk_plain))
    = [[sodium; lithium]] ∧
  job_filename sodium = "sodium.jar".
Proof.
  rewrite entries_disk_plain. split; [left|]. split; [|reflexivity].
  vm_compute. reflexivity.
Qed.

(** C3 as amended, on the same installation. *)
Lemma sync_dir_submits_whole_listing_witness :
  submitted (calls (sync_dir_resolved server mods_dir (Some mods_url) disk_plain))
    = [[sodium; lithium]] ∧
  DownloadFiles [sodium; lithium] mods_dir
    ∈ calls (sync_dir_resolved server mods_dir (Some mods_url) disk_plain).
Proof.
  apply (sync_dir_submits_whole_listing server mods_dir mods_url listed).
  - reflexivity.
  - reflexivity.
  - vm_compute. reflexivity.
Defined.

(** C4, the claim as stated fails.  Lines 162-182 are run with a URL for
    which the server has no listing, and the run raises; they are run with
    a URL for which it has names but no download list, and the run raises
    once the files that are not listed have been removed. *)
Lemma missing_listing_raises :
  get_filenames server config_url = None ∧
  result (sync_dir_resolved server config_dir (Some config_url) disk_plain)
    = Raised (ValueError "Server filenames are not set") ∧
  get_file_downloads server shaders_url = None ∧
  result (sync_dir_resolved server mods_dir (Some shaders_url) disk_plain)
    = Raised (ValueError "URLs to download are not set") ∧
  removals (calls (sync_dir_resolved server mods_dir (Some shaders_url) disk_plain))
    = [join mods_dir "sodium.jar"; join mods_dir "a.jar"] ∧
  final_fs (sync_dir_resolved server mods_dir (Some shaders_url) disk_plain)
    !! join mods_dir "a.jar" = None.
Proof. repeat split; vm_compute; reflexivity. Qed.

(** C4 as amended, on the same two categories. *)
Lemma sync_dir_raises_without_listing_witness :
  sync_dir_resolved server config_dir (Some config_url) disk_plain =
    (Raised (ValueError "Server filenames are not set"), disk_plain,
     [GetFilenames config_url]) ∧
  sync_dir_resolved server mods_dir (Some shaders_url) disk_plain =
    (Raised (ValueError "URLs to download are not set"),
     final_fs (remove_invalid mods_dir ["bsl.zip"] disk_plain),
     GetFilenames shaders_url
       :: calls (remove_invalid mods_dir ["bsl.zip"] disk_plain)
       ++ [GetFileDownloads shaders_url]).
Proof.
  split.
  - apply (proj1 (sync_dir_raises_without_listing server config_dir config_url
                    disk_plain)).
    reflexivity.
  - apply (proj2 (sync_dir_raises_without_listing server mods_dir shaders_url
                    disk_plain) ["bsl.zip"]).
    + reflexivity.
    + reflexivity.
    + vm_compute. reflexivity.
Defined.

(** C5, the claim as stated fails.  Lines 162-182 are run on the mods
    directory with the sub-directory [libs], for a server that has two
    downloads to offer: [os.remove] raises on the sub-directory, which
    stays, and the exception ends the run; nothing is submitted for
    download, nothing is yielded and the missing mod is not fetched.
    None of this depends on the order of the listing. *)
Lemma failed_removal_ends_run :
  get_file_downloads server mods_url = Some [sodium; lithium] ∧
  result (sync_dir_resolved server mods_dir (Some mods_url) disk_with_subdir)
    = Raised (IsADirectoryError (join mods_dir "libs")) ∧
  final_fs (sync_dir_resolved server mods_dir (Some mods_url) disk_with_subdir)
    !! join mods_dir "libs" = Some Dir ∧
  submitted (calls (sync_dir_resolved server mods_dir (Some mods_url)
                      disk_with_subdir)) = [] ∧
  yielded (calls (sync_dir_resolved server mods_dir (Some mods_url)
                    disk_with_subdir)) = [] ∧
  final_fs (sync_dir_resolved server mods_dir (Some mods_url) disk_with_subdir)
    !! join mods_dir "lithium.jar" = None.
Proof. repeat split; vm_compute; reflexivity. Qed.

(** C5 as amended, on the same installation, as the model lists the
    directory and for a listing that puts the outdated file first: the
    outdated file is unlinked, then the loop ends at the sub-directory, and
    what is listed from there on is as it was. *)
Lemma failed_removal_aborts_sync_witness :
  (∃ before f after,
     entries disk_with_subdir mods_dir = before ++ f :: after ∧
     (f ∉ listed) ∧ disk_with_subdir !! join mods_dir f = Some Dir ∧
     (∀ h, h ∈ before → h ∉ listed →
           is_file (disk_with_subdir !! join mods_dir h) = true) ∧
     sync_dir_resolved server mods_dir (Some mods_url) disk_with_subdir =
       (Raised (IsADirectoryError (join mods_dir f)),
        unlink_all (join mods_dir <$> stale listed before) disk_with_subdir,
        GetFilenames mods_url :: Listdir mods_dir
          :: unlink_calls mods_dir (stale listed before)
          ++ [Remove (join mods_dir f)]) ∧
     (∀ h, h ∈ f :: after →
        final_fs (sync_dir_resolved server mods_dir (Some mods_url)
                    disk_with_subdir) !! join mods_dir h
          = disk_with_subdir !! join mods_dir h)) ∧
  for_each ["a.jar"; "libs"; "sodium.jar"]
    (remove_if_invalid mods_dir listed) disk_with_subdir =
    (Raised (IsADirectoryError (join mods_dir "libs")),
     unlink_all (join mods_dir <$> stale listed ["a.jar"]) disk_with_subdir,
     unlink_calls mods_dir (stale listed ["a.jar"])
       ++ [Remove (join mods_dir "libs")]) ∧
  (∀ h, h ∈ ["libs"; "sodium.jar"] →
     unlink_all (join mods_dir <$> stale listed ["a.jar"]) disk_with_subdir
       !! join mods_dir h = disk_with_subdir !! join mods_dir h).
Proof.
  destruct (failed_removal_aborts_sync server mods_dir mods_url listed "libs"
              disk_with_subdir) as [Hrun Hany].
  - reflexivity.
  - vm_compute. reflexivity.
  - vm_compute. reflexivity.
  - apply (bool_decide_unpack _). vm_compute. exact I.
  - split; [exact Hrun|].
    apply (Hany ["a.jar"; "libs"; "sodium.jar"] ["a.jar"] "libs" ["sodium.jar"]).
    + rewrite entries_disk_with_subdir.
      apply (Permutation_cons_append ["libs"; "sodium.jar"] "a.jar").
    + reflexivity.
    + apply (bool_decide_unpack _). vm_compute. exact I.
    + vm_compute. reflexivity.
    + intros h Hh _. apply list_elem_of_singleton in Hh as ->.
      vm_compute. reflexivity.
Defined.

(** C6, on a manifest whose config category is switched off: the run
    raises, and leaves the filesystem without the category directory, as
    it found it. *)
Lemma sync_dir_disabled_category_raises_witness :
  manifest_urls !! "config" = Some None ∧
  sync_dir server manager "config" disk_fresh =
    (Raised (ValueError "Invalid remote directory"), disk_fresh, []) ∧
  result (sync_dir server manager "config" disk_fresh) ≠ Returned tt ∧
  yielded (calls (sync_dir server manager "config" disk_fresh)) = [] ∧
  final_fs (sync_dir server manager "config" disk_fresh) = disk_fresh.
Proof.
  split; [reflexivity|].
  apply (sync_dir_disabled_category_raises server manager "config"
           {[ "urls" := manifest_urls ]} manifest_urls disk_fresh).
  - reflexivity.
  - reflexivity.
  - reflexivity.
Defined.

(** C9, on the installation with outdated files. *)
Lemma deletions_precede_downloads_witness :
  removals_precede_downloads (calls (sync_dir server manager "mods" disk_plain))
    = true ∧
  removals_precede_downloads
    (calls (sync_dir_resolved server mods_dir (Some mods_url) disk_plain))
    = true ∧
  match remove_invalid mods_dir listed disk_plain with
  | (Returned _, fs1, t1) =>
      (∀ f, f ∈ entries fs1 mods_dir → f ∈ listed) ∧
      sync_dir_resolved server mods_dir (Some mods_url) disk_plain =
        (result (download_mods server mods_dir mods_url fs1),
         final_fs (download_mods server mods_dir mods_url fs1),
         GetFilenames mods_url
           :: t1 ++ calls (download_mods server mods_dir mods_url fs1))
  | (Raised e, fs1, t1) =>
      sync_dir_resolved server mods_dir (Some mods_url) disk_plain =
        (Raised e, fs1, GetFilenames mods_url :: t1) ∧
      submitted (GetFilenames mods_url :: t1) = []
  end.
Proof.
  destruct (deletions_precede_downloads server manager "mods" mods_dir
              (Some mods_url) mods_url listed disk_plain) as (H1 & H2 & H3).
  split; [exact H1|]. split; [exact H2|]. apply H3. reflexivity.
Defined.


(** C7, the claim as stated fails: the manifest gives no URL for the
    servers file, and [sync_file] returns normally after a warning, without
    asking the server and without raising. *)
Lemma sync_file_none_url_returns :
  manifest_urls !! "servers" = Some None ∧
  result (sync_file server manager "servers" disk_fresh) = Returned tt ∧
  calls (sync_file server manager "servers" disk_fresh) =
    [Mkdir store; Log DEBUG "Remote file URL: %s";
     Log WARNING "Remote file '%s' is not set"].
Proof.
  split; [reflexivity|].
  split; vm_compute; reflexivity.
Qed.

(** C7 as amended, on a manifest without an entry for the options file and
    on a manifest whose entry for the servers file is [None]. *)
Lemma sync_file_without_url_witness :
  sync_file server manager_dirs_only "options" disk_fresh =
    (Raised (ValueError "Invalid remote file"), disk_fresh, []) ∧
  sync_file server manager "servers" disk_fresh =
    (Returned tt, with_dirs disk_fresh (work_dir manager),
     [Mkdir (work_dir manager); Log DEBUG "Remote file URL: %s";
      Log WARNING "Remote file '%s' is not set"]).
Proof.
  split.
  - apply (proj1 (sync_file_without_url server manager_dirs_only "options"
                    {[ "urls" := dirs_only_urls ]} dirs_only_urls disk_fresh
                    eq_refl eq_refl (or_introl eq_refl))).
    reflexivity.
  - apply (proj2 (sync_file_without_url server manager "servers"
                    {[ "urls" := manifest_urls ]} manifest_urls disk_fresh
                    eq_refl eq_refl (or_intror eq_refl))).
    + reflexivity.
    + vm_compute. reflexivity.
Defined.

(** C8, on an installation that has an options file, and once more on
    what that run leaves behind: the second run unlinks the file the
    first one wrote and downloads it again. *)
Lemma sync_file_always_refetches_witness :
  calls (sync_file server manager "options" disk_fresh) =
    [Mkdir store; Log DEBUG "Remote file URL: %s"; GetFileDownload options_url;
     Exists (join store "options.txt"); Remove (join store "options.txt");
     Log INFO "Removed existing local file '%s'";
     Download options (join store "options.txt")] ∧
  calls (sync_file server manager "options"
           (final_fs (sync_file server manager "options" disk_fresh))) =
    [Mkdir store; Log DEBUG "Remote file URL: %s"; GetFileDownload options_url;
     Exists (join store "options.txt"); Remove (join store "options.txt");
     Log INFO "Removed existing local file '%s'";
     Download options (join store "options.txt")] ∧
  sync_file server manager "options"
    (<[local_file manager "options" := File "fov:90"]> disk_fresh) =
  sync_file server manager "options"
    (<[local_file manager "options" := File "fov:110"]> disk_fresh).
Proof.
  pose proof (λ fs, sync_file_always_refetches server manager "options"
                {[ "urls" := manifest_urls ]} manifest_urls options_url options
                fs eq_refl eq_refl (or_introl eq_refl) eq_refl eq_refl) as Hrun.
  split; [|split].
  - rewrite (proj1 (Hrun disk_fresh ltac:(vm_compute; reflexivity)
                      ltac:(vm_compute; discriminate))).
    vm_compute. reflexivity.
  - rewrite (proj1 (Hrun (final_fs (sync_file server manager "options" disk_fresh))
                      ltac:(vm_compute; reflexivity)
                      ltac:(vm_compute; discriminate))).
    vm_compute. reflexivity.
  - apply (proj2 (Hrun disk_fresh ltac:(vm_compute; reflexivity)
                    ltac:(vm_compute; discriminate))).
Defined.

(** C10, with a download primitive that fails and writes nothing: the
    options file that was there is gone after the run. *)
Lemma sync_file_unlinks_before_download_witness :
  disk_fresh !! join store "options.txt" = Some (File "fov:90") ∧
  ∃ fs1 t1,
    fs1 !! join store "options.txt" = None ∧
    calls (sync_file offline manager "options" disk_fresh) =
      t1 ++ [Download options (join store "options.txt")] ∧
    final_fs (sync_file offline manager "options" disk_fresh) =
      (download offline options (join store "options.txt") fs1).2 ∧
    (is_Some (disk_fresh !! join store "options.txt") →
     Remove (join store "options.txt") ∈ t1) ∧
    ((download offline options (join store "options.txt") fs1).2
       !! join store "options.txt" = fs1 !! join store "options.txt" →
     final_fs (sync_file offline manager "options" disk_fresh)
       !! join store "options.txt" = None).
Proof.
  split; [vm_compute; reflexivity|].
  apply (sync_file_unlinks_before_download offline manager "options" disk_fresh).
  apply (bool_decide_unpack _). vm_compute. exact I.
Defined.

(** * Further properties of the methods *)

(** ** Every way [_create_file_path] and [sync_file] can end *)

Section FilePathCases.

Implicit Types (self : MCManager) (fs : gmap (list string) node).

Lemma create_file_path_no_config self name fs :
  remote_config self = None →
  _create_file_path self name fs =
  (Raised (TypeError "'NoneType' object is not subscriptable"), fs, []).
Proof.
  intros Hcfg. unfold _create_file_path, config_urls. by rewrite Hcfg.
Qed.

Lemma create_file_path_no_urls self name cfg fs :
  remote_config self = Some cfg →
  cfg !! "urls" = None →
  _create_file_path self name fs = (Raised (KeyError "urls"), fs, []).
Proof.
  intros Hcfg Hurls. unfold _create_file_path, config_urls.
  by rewrite Hcfg, Hurls.
Qed.

Lemma create_file_path_unknown self name cfg urls u fs :
  remote_config self = Some cfg →
  cfg !! "urls" = Some urls →
  urls !! name = Some u →
  name ≠ "options" →
  name ≠ "servers" →
  _create_file_path self name fs =
  (Raised (ValueError "Unknown valid remote file"), fs, []).
Proof.
  intros Hcfg Hurls Hu Ho Hs. unfold _create_file_path, config_urls.
  rewrite Hcfg, Hurls, bind_ret. cbn [py_in py_eq].
  rewrite bool_decide_eq_true_2 by (rewrite Hu; eauto). cbn [negb].
  by rewrite !bool_decide_eq_false_2 by done.
Qed.

Lemma create_file_path_blocked self name cfg urls u q fs :
  remote_config self = Some cfg →
  cfg !! "urls" = Some urls →
  name = "options" ∨ name = "servers" →
  urls !! name = Some u →
  find (λ q, is_file (fs !! q)) (prefixes (work_dir self)) = Some q →
  _create_file_path self name fs =
  (Raised (if decide (q = work_dir self) then FileExistsError (work_dir self)
           else NotADirectoryError (take (S (length q)) (work_dir self))),
   fs, [Mkdir (work_dir self)]).
Proof.
  intros Hcfg Hurls Hname Hu Hblock.
  unfold _create_file_path, config_urls.
  rewrite Hcfg, Hurls, bind_ret. cbn [py_in py_eq].
  rewrite bool_decide_eq_true_2 by (rewrite Hu; eauto). cbn [negb].
  destruct Hname as [-> | ->].
  - change (bool_decide ("options" = "options")) with true. cbv iota.
    rewrite bind_ret, dirname_join. unfold bind, os_makedirs.
    by rewrite Hblock.
  - change (bool_decide ("servers" = "options")) with false.
    change (bool_decide ("servers" = "servers")) with true. cbv iota.
    rewrite bind_ret, dirname_join. unfold bind, os_makedirs.
    by rewrite Hblock.
Qed.

End FilePathCases.

Section FilePathProperties.

Implicit Types (self : MCManager) (fs : gmap (list string) node).

Lemma find_none_elem {X} (h : X → bool) (l : list X) x :
  find h l = None → x ∈ l → h x = false.
Proof.
  intros Hnone Hin. apply list_elem_of_In in Hin.
  by apply (find_none h l Hnone).
Qed.

Lemma find_none_all {X} (h : X → bool) (l : list X) :
  (∀ x, x ∈ l → h x = false) → find h l = None.
Proof.
  induction l as [|x l IH]; [done|]. intros H. cbn.
  rewrite (H x) by left. apply IH. intros y Hy. apply H. by right.
Qed.

(** The directory creation changes nothing that was there. *)
Lemma with_dirs_keeps fs p q n :
  find (λ q, is_file (fs !! q)) (prefixes p) = None →
  fs !! q = Some n → with_dirs fs p !! q = Some n.
Proof.
  intros Hfree Hq. rewrite with_dirs_lookup. case_bool_decide as Hin; [|done].
  pose proof (find_none_elem _ _ q Hfree Hin) as Hnf. cbn in Hnf.
  rewrite Hq in Hnf. by destruct n.
Qed.

Lemma with_dirs_again fs p :
  find (λ q, is_file (with_dirs fs p !! q)) (prefixes p) = None ∧
  with_dirs (with_dirs fs p) p = with_dirs fs p.
Proof.
  split.
  - apply find_none_all. intros q Hq. rewrite with_dirs_lookup.
    by rewrite bool_decide_eq_true_2.
  - apply map_eq. intros q. rewrite !with_dirs_lookup. by case_bool_decide.
Qed.

(** A call of [_create_file_path] that returns was given a single file name
    with an entry in the urls section, and found the working directory
    free of regular files on the way. *)
Lemma create_file_path_returned self name fs p u fs1 t :
  _create_file_path self name fs = (Returned (p, u), fs1, t) →
  ∃ cfg urls,
    remote_config self = Some cfg ∧ cfg !! "urls" = Some urls ∧
    (name = "options" ∨ name = "servers") ∧ urls !! name = Some u ∧
    find (λ q, is_file (fs !! q)) (prefixes (work_dir self)) = None ∧
    p = local_file self name ∧ fs1 = with_dirs fs (work_dir self) ∧
    t = [Mkdir (work_dir self); Log DEBUG "Remote file URL: %s"].
Proof.
  intros Hrun.
  destruct (remote_config self) as [cfg|] eqn:Hcfg.
  2: { by rewrite create_file_path_no_config in Hrun. }
  destruct (cfg !! "urls") as [urls|] eqn:Hurls.
  2: { by rewrite (create_file_path_no_urls self name cfg) in Hrun. }
  destruct (urls !! name) as [u'|] eqn:Hu.
  2: { by rewrite (create_file_path_unlisted self name cfg urls) in Hrun. }
  assert (name = "options" ∨ name = "servers") as Hname.
  { destruct (decide (name = "options")) as [|Ho]; [by left|].
    destruct (decide (name = "servers")) as [|Hs]; [by right|].
    by rewrite (create_file_path_unknown self name cfg urls u') in Hrun. }
  destruct (find (λ q, is_file (fs !! q)) (prefixes (work_dir self)))
    as [q|] eqn:Hfree.
  { by rewrite (create_file_path_blocked self name cfg urls u' q) in Hrun. }
  rewrite (create_file_path_run self name cfg urls u') in Hrun by done.
  injection Hrun as <- <- <- <-. by exists cfg, urls.
Qed.

(** A call of [_create_file_path] that raises has changed nothing, and has
    at most tried to create the working directory. *)
Lemma create_file_path_raised self name fs e fs1 t :
  _create_file_path self name fs = (Raised e, fs1, t) →
  fs1 = fs ∧ (t = [] ∨ t = [Mkdir (work_dir self)]).
Proof.
  intros Hrun.
  destruct (remote_config self) as [cfg|] eqn:Hcfg.
  2: { rewrite create_file_path_no_config in Hrun by done.
       injection Hrun as <- <- <-. split; [done|]. by left. }
  destruct (cfg !! "urls") as [urls|] eqn:Hurls.
  2: { rewrite (create_file_path_no_urls self name cfg) in Hrun by done.
       injection Hrun as <- <- <-. split; [done|]. by left. }
  destruct (urls !! name) as [u'|] eqn:Hu.
  2: { rewrite (create_file_path_unlisted self name cfg urls) in Hrun by done.
       injection Hrun as <- <- <-. split; [done|]. by left. }
  destruct (decide (name = "options" ∨ name = "servers")) as [Hname|Hname].
  2: { rewrite (create_file_path_unknown self name cfg urls u') in Hrun
         by (done || intros ->; apply Hname; auto).
       injection Hrun as <- <- <-. split; [done|]. by left. }
  destruct (find (λ q, is_file (fs !! q)) (prefixes (work_dir self)))
    as [q|] eqn:Hfree.
  - rewrite (create_file_path_blocked self name cfg urls u' q) in Hrun by done.
    injection Hrun as <- <- <-. split; [done|]. by right.
  - by rewrite (create_file_path_run self name cfg urls u') in Hrun.
Qed.

Lemma create_file_path_preserves self name fs :
  ∀ q n, fs !! q = Some n →
         final_fs (_create_file_path self name fs) !! q = Some n.
Proof.
  destruct (_create_file_path self name fs) as [[[[p u]|e] fs1] t] eqn:Hrun;
    cbn [result final_fs fst snd].
  - apply create_file_path_returned in Hrun
      as (cfg & urls & _ & _ & _ & _ & Hfree & _ & -> & _).
    intros q n Hq. by apply with_dirs_keeps.
  - by apply create_file_path_raised in Hrun as [-> _].
Qed.

(** X1: [_create_file_path] is all or nothing on the filesystem.  When it
    raises, whatever the exception, the filesystem is as it was.  When it
    returns, every entry that existed is still there with the node it had,
    and the only paths that differ are the working directory and its
    ancestors, which are now directories. *)
Theorem create_file_path_all_or_nothing self name fs :
  (∀ e, result (_create_file_path self name fs) = Raised e →
        final_fs (_create_file_path self name fs) = fs) ∧
  (∀ q n, fs !! q = Some n →
          final_fs (_create_file_path self name fs) !! q = Some n) ∧
  (∀ q, final_fs (_create_file_path self name fs) !! q ≠ fs !! q →
        q ∈ prefixes (work_dir self) ∧
        final_fs (_create_file_path self name fs) !! q = Some Dir).
Proof.
  destruct (_create_file_path self name fs) as [[[[p u]|e] fs1] t] eqn:Hrun;
    cbn [result final_fs fst snd].
  - apply create_file_path_returned in Hrun
      as (cfg & urls & _ & _ & _ & _ & Hfree & _ & -> & _).
    split; [done|]. split.
    + intros q n Hq. by apply with_dirs_keeps.
    + intros q. rewrite with_dirs_lookup. by case_bool_decide.
  - apply create_file_path_raised in Hrun as [-> _].
    split; [done|]. split; [done|]. by intros q [].
Qed.

(** X2: a call of [_create_file_path] that has returned can be repeated: on
    the filesystem it left, the same call returns the same path and URL,
    makes the same calls and changes nothing. *)
Theorem create_file_path_idempotent self name fs p u fs1 t :
  _create_file_path self name fs = (Returned (p, u), fs1, t) →
  _create_file_path self name fs1 = (Returned (p, u), fs1, t).
Proof.
  intros Hrun. apply create_file_path_returned in Hrun
    as (cfg & urls & Hcfg & Hurls & Hname & Hu & Hfree & -> & -> & ->).
  destruct (with_dirs_again fs (work_dir self)) as [Hfree' Hsame].
  rewrite (create_file_path_run self name cfg urls u) by done.
  by rewrite Hsame.
Qed.

End FilePathProperties.

Section FileSyncProperties.

Context (net : remote_module).

Implicit Types (self : MCManager) (fs : gmap (list string) node).

Lemma sync_file_resolved_no_record p url fs :
  get_file_download net url = None →
  sync_file_resolved net p (Some url) fs =
  (Raised (ValueError "Server file is not set"), fs, [GetFileDownload url]).
Proof.
  intros Hj. unfold sync_file_resolved, remote_get_file_download.
  rewrite bind_unfold. unfold bind at 1, emit, ret. by rewrite Hj.
Qed.

Lemma sync_file_resolved_directory p url j fs :
  get_file_download net url = Some j →
  fs !! p = Some Dir →
  sync_file_resolved net p (Some url) fs =
  (Raised (IsADirectoryError p), fs,
   [GetFileDownload url; Exists p; Remove p]).
Proof.
  intros Hj Hd. unfold sync_file_resolved, remote_get_file_download.
  rewrite bind_unfold. unfold bind at 1, emit, ret. rewrite Hj.
  rewrite bind_unfold. unfold os_path_exists.
  cbn [result final_fs calls fst snd].
  rewrite bool_decide_eq_true_2 by (rewrite Hd; eauto).
  unfold bind, os_remove. by rewrite Hd.
Qed.

(** How a run of lines 196-209 that raises has ended. *)
Lemma sync_file_resolved_raised p uo fs e :
  result (sync_file_resolved net p uo fs) = Raised e →
  final_fs (sync_file_resolved net p uo fs) = fs ∧
  (∀ j q, Download j q ∉ calls (sync_file_resolved net p uo fs)) ∧
  (e = ValueError "Server file is not set" ∨
   e = IsADirectoryError p ∧ fs !! p = Some Dir).
Proof.
  destruct uo as [url|]; [|done].
  destruct (get_file_download net url) as [j|] eqn:Hj.
  - destruct (decide (fs !! p = Some Dir)) as [Hd|Hd].
    + rewrite (sync_file_resolved_directory p url j fs Hj Hd).
      cbn [result final_fs calls fst snd]. intros [= <-].
      split; [done|]. split; [|by right].
      intros j' q. by intros [?|[?|[?|?%elem_of_nil]%elem_of_cons
                                  ]%elem_of_cons]%elem_of_cons.
    + by rewrite (sync_file_resolved_run net p url j fs Hj Hd).
  - rewrite (sync_file_resolved_no_record p url fs Hj).
    cbn [result final_fs calls fst snd]. intros [= <-].
    split; [done|]. split; [|by left].
    intros j' q. by intros [?|?%elem_of_nil]%elem_of_cons.
Qed.

(** X4: a run of [sync_file] that ends with an exception has unlinked
    nothing and downloaded nothing: every entry of the filesystem is still
    there with the node it had, and [remote.download] was not called. *)
Theorem sync_file_failure_keeps_files self name fs e :
  result (sync_file net self name fs) = Raised e →
  (∀ q n, fs !! q = Some n →
          final_fs (sync_file net self name fs) !! q = Some n) ∧
  (∀ j q, Download j q ∉ calls (sync_file net self name fs)).
Proof.
  unfold sync_file. rewrite bind_unfold.
  pose proof (create_file_path_calls self name fs) as Hcalls.
  pose proof (create_file_path_preserves self name fs) as Hkeep.
  destruct (_create_file_path self name fs) as [[[[p u]|e'] fs1] t] eqn:Hrun;
    cbn [result final_fs calls fst snd] in *.
  - intros (Hfs & Hnd & _)%sync_file_resolved_raised. rewrite Hfs. split.
    + done.
    + intros j q [Hin|Hin]%elem_of_app; [|by apply Hnd in Hin].
      apply Hcalls in Hin as [[? ?]|(? & ? & ?)]; done.
  - intros _. split; [done|].
    intros j q Hin. apply Hcalls in Hin as [[? ?]|(? & ? & ?)]; done.
Qed.

(** A run of [sync_file] on a manifest with a URL for the name and a
    server with a record for it, in full. *)
Lemma sync_file_transfer_run self name cfg urls url j fs :
  remote_config self = Some cfg →
  cfg !! "urls" = Some urls →
  name = "options" ∨ name = "servers" →
  urls !! name = Some (Some url) →
  get_file_download net url = Some j →
  find (λ q, is_file (fs !! q)) (prefixes (work_dir self)) = None →
  fs !! local_file self name ≠ Some Dir →
  sync_file net self name fs =
    (Returned tt,
     (download net j (local_file self name)
        (delete (local_file self name) (with_dirs fs (work_dir self)))).2,
     [Mkdir (work_dir self); Log DEBUG "Remote file URL: %s";
      GetFileDownload url; Exists (local_file self name)]
       ++ unlink_existing (bool_decide (is_Some (fs !! local_file self name)))
                          (local_file self name)
       ++ [Download j (local_file self name)]).
Proof.
  intros Hcfg Hurls Hname Hu Hj Hfree Hnd. unfold sync_file.
  rewrite (bind_returned _ _ _ _ _ _
             (create_file_path_run self name cfg urls (Some url) fs
                Hcfg Hurls Hname Hu Hfree)).
  destruct (local_file_below self name) as [x Hx].
  assert (with_dirs fs (work_dir self) !! local_file self name
          = fs !! local_file self name) as Hsame
    by (rewrite Hx; apply with_dirs_below).
  rewrite (sync_file_resolved_run _ _ url j); [|done|by rewrite Hsame].
  by rewrite Hsame.
Qed.

(** X5: when the manifest has a URL for the single file and the server
    has no record for it, [sync_file] raises [ValueError] after one request
    to the server; the working directory has been created, and the local
    file, if there is one, has not been touched. *)
Theorem sync_file_without_record self name cfg urls url fs :
  remote_config self = Some cfg →
  cfg !! "urls" = Some urls →
  name = "options" ∨ name = "servers" →
  urls !! name = Some (Some url) →
  get_file_download net url = None →
  find (λ q, is_file (fs !! q)) (prefixes (work_dir self)) = None →
  sync_file net self name fs =
    (Raised (ValueError "Server file is not set"),
     with_dirs fs (work_dir self),
     [Mkdir (work_dir self); Log DEBUG "Remote file URL: %s";
      GetFileDownload url]) ∧
  with_dirs fs (work_dir self) !! local_file self name
    = fs !! local_file self name.
Proof.
  intros Hcfg Hurls Hname Hu Hj Hfree. split.
  - unfold sync_file.
    rewrite (bind_returned _ _ _ _ _ _
               (create_file_path_run self name cfg urls (Some url) fs
                  Hcfg Hurls Hname Hu Hfree)).
    by rewrite sync_file_resolved_no_record.
  - destruct (local_file_below self name) as [x ->]. apply with_dirs_below.
Qed.

(** X6: when a directory stands at the local path of the single file,
    [sync_file] asks the server for the record, finds that the path exists
    and ends with the [IsADirectoryError] of [os.remove]; the directory
    stays and [remote.download] is not called. *)
Theorem sync_file_on_directory self name cfg urls url j fs :
  remote_config self = Some cfg →
  cfg !! "urls" = Some urls →
  name = "options" ∨ name = "servers" →
  urls !! name = Some (Some url) →
  get_file_download net url = Some j →
  find (λ q, is_file (fs !! q)) (prefixes (work_dir self)) = None →
  fs !! local_file self name = Some Dir →
  sync_file net self name fs =
    (Raised (IsADirectoryError (local_file self name)),
     with_dirs fs (work_dir self),
     [Mkdir (work_dir self); Log DEBUG "Remote file URL: %s";
      GetFileDownload url; Exists (local_file self name);
      Remove (local_file self name)]) ∧
  with_dirs fs (work_dir self) !! local_file self name = Some Dir.
Proof.
  intros Hcfg Hurls Hname Hu Hj Hfree Hd.
  assert (with_dirs fs (work_dir self) !! local_file self name = Some Dir)
    as Hd'.
  { destruct (local_file_below self name) as [x Hx]. rewrite Hx in *.
    by rewrite with_dirs_below. }
  split; [|done]. unfold sync_file.
  rewrite (bind_returned _ _ _ _ _ _
             (create_file_path_run self name cfg urls (Some url) fs
                Hcfg Hurls Hname Hu Hfree)).
  by rewrite (sync_file_resolved_directory _ url j).
Qed.

(** What lines 196-209 leave behind: the filesystem they were given, or
    what [remote.download] made of it once the destination was unlinked. *)
Lemma sync_file_resolved_fs p uo fs :
  final_fs (sync_file_resolved net p uo fs) = fs ∨
  ∃ j, final_fs (sync_file_resolved net p uo fs)
       = (download net j p (delete p fs)).2.
Proof.
  destruct uo as [url|]; [|by left].
  destruct (get_file_download net url) as [j|] eqn:Hj.
  - destruct (decide (fs !! p = Some Dir)) as [Hd|Hd].
    + left. by rewrite (sync_file_resolved_directory p url j).
    + right. exists j. by rewrite (sync_file_resolved_run net p url j).
  - left. by rewrite sync_file_resolved_no_record.
Qed.

(** X7: with a download primitive that writes nothing but its destination,
    no run of [sync_file], whatever the manifest, the name and the
    outcome, changes a path other than the local path of the single file,
    the working directory and its ancestors. *)
Theorem sync_file_frame self name fs :
  (∀ j dest fs0 q, q ≠ dest → (download net j dest fs0).2 !! q = fs0 !! q) →
  ∀ q, q ∉ prefixes (work_dir self) →
       q ≠ local_file self name →
       final_fs (sync_file net self name fs) !! q = fs !! q.
Proof.
  intros Hdl q Hq Hne. unfold sync_file. rewrite bind_unfold.
  destruct (_create_file_path self name fs) as [[[[p u]|e'] fs1] t] eqn:Hrun;
    cbn [final_fs fst snd].
  - apply create_file_path_returned in Hrun
      as (cfg & urls & _ & _ & _ & _ & _ & -> & -> & _).
    assert (with_dirs fs (work_dir self) !! q = fs !! q) as Hsame.
    { rewrite with_dirs_lookup. by rewrite bool_decide_eq_false_2. }
    destruct (sync_file_resolved_fs (local_file self name) u
                (with_dirs fs (work_dir self))) as [->|[j ->]]; [done|].
    by rewrite Hdl, lookup_delete_ne.
  - by apply create_file_path_raised in Hrun as [-> _].
Qed.

(** X8: with a download primitive that writes the same content to its
    destination each time, a second run of [sync_file] after one that
    downloaded returns as well, makes the calls of a run that finds the
    file in place, and leaves the filesystem exactly as the first run
    did. *)
Theorem sync_file_idempotent self name cfg urls url j c fs :
  remote_config self = Some cfg →
  cfg !! "urls" = Some urls →
  name = "options" ∨ name = "servers" →
  urls !! name = Some (Some url) →
  get_file_download net url = Some j →
  find (λ q, is_file (fs !! q)) (prefixes (work_dir self)) = None →
  fs !! local_file self name ≠ Some Dir →
  (∀ fs0, (download net j (local_file self name) fs0).2
          = <[local_file self name := File c]> fs0) →
  sync_file net self name (final_fs (sync_file net self name fs)) =
    (Returned tt, final_fs (sync_file net self name fs),
     [Mkdir (work_dir self); Log DEBUG "Remote file URL: %s";
      GetFileDownload url; Exists (local_file self name);
      Remove (local_file self name);
      Log INFO "Removed existing local file '%s'";
      Download j (local_file self name)]).
Proof.
  intros Hcfg Hurls Hname Hu Hj Hfree Hnd Hdl.
  rewrite (sync_file_transfer_run self name cfg urls url j fs) by done.
  cbn [final_fs fst snd]. rewrite Hdl.
  set (p := local_file self name) in *.
  set (fs1 := <[p := File c]> (delete p (with_dirs fs (work_dir self)))).
  destruct (local_file_below self name) as [x Hx]. fold p in Hx.
  assert (p ∉ prefixes (work_dir self)) as Hp.
  { intros H%prefixes_length. rewrite Hx in H. unfold join in H.
    rewrite length_app in H. simpl in H. lia. }
  assert (∀ q, q ∈ prefixes (work_dir self) → fs1 !! q = Some Dir) as Hdirs.
  { intros q Hq. unfold fs1.
    rewrite lookup_insert_ne, lookup_delete_ne by (intros ->; done).
    rewrite with_dirs_lookup. by rewrite bool_decide_eq_true_2. }
  rewrite (sync_file_transfer_run self name cfg urls url j fs1); try done.
  - fold p. rewrite Hdl. f_equal; [f_equal|].
    + apply map_eq. intros q. unfold fs1.
      destruct (decide (q = p)) as [->|Hne]; [by rewrite !lookup_insert_eq|].
      rewrite !lookup_insert_ne, !lookup_delete_ne by done.
      rewrite !with_dirs_lookup. case_bool_decide as Hq; [done|].
      rewrite lookup_insert_ne, lookup_delete_ne by done.
      rewrite with_dirs_lookup. by rewrite bool_decide_eq_false_2.
    + unfold fs1. rewrite lookup_insert_eq.
      by rewrite bool_decide_eq_true_2 by eauto.
  - apply find_none_all. intros q Hq. by rewrite (Hdirs q Hq).
  - fold p. unfold fs1. by rewrite lookup_insert_eq.
Qed.

End FileSyncProperties.

(** ** The two phases of [sync_dir], in every run *)

Section DirSyncProperties.

Context (net : remote_module).

Implicit Types (d : list string) (R : list string).
Implicit Types (fs : gmap (list string) node).

Lemma yielded_app t1 t2 : yielded (t1 ++ t2) = yielded t1 ++ yielded t2.
Proof. unfold yielded. apply omap_app. Qed.

Lemma yielded_yields (evs : list progress) : yielded (Yield <$> evs) = evs.
Proof.
  induction evs as [|x l IH]; [done|].
  change (yielded (Yield <$> x :: l)) with (x :: yielded (Yield <$> l)).
  by rewrite IH.
Qed.

Lemma removals_cons_remove p t : removals (Remove p :: t) = p :: removals t.
Proof. done. Qed.

Lemma removals_cons_log l m t : removals (Log l m :: t) = removals t.
Proof. done. Qed.

(** Every path the removal loop hands to [os.remove] is a listed name that
    the server does not know. *)
Lemma removal_loop_removals d R names fs p :
  p ∈ removals (calls (for_each names (remove_if_invalid d R) fs)) →
  ∃ f, f ∈ names ∧ (f ∉ R) ∧ p = join d f.
Proof.
  revert fs. induction names as [|x names IH]; intros fs.
  - by intros ?%elem_of_nil.
  - cbn [for_each]. rewrite bind_unfold, remove_if_invalid_unfold.
    destruct (decide (x ∈ R)) as [HxR|HxR].
    + rewrite bool_decide_eq_true_2 by done. cbn [calls snd app].
      intros (f & ? & ? & ?)%IH. exists f. split; [by right|done].
    + rewrite bool_decide_eq_false_2 by done.
      destruct (fs !! join d x) as [[c|]|]; cbn [calls snd app];
        rewrite removals_cons_remove, ?removals_cons_log.
      * intros [->|(f & ? & ? & ?)%IH]%elem_of_cons.
        -- exists x. split; [left|done].
        -- exists f. split; [by right|done].
      * intros [->|[]%elem_of_nil]%elem_of_cons. exists x. split; [left|done].
      * intros [->|[]%elem_of_nil]%elem_of_cons. exists x. split; [left|done].
Qed.

Lemma stale_nil_iff R names : stale R names = [] ↔ ∀ f, f ∈ names → f ∈ R.
Proof.
  split.
  - intros Hnil f Hf. destruct (decide (f ∈ R)) as [|HfR]; [done|].
    assert (f ∈ stale R names) as Hin by by apply elem_of_stale.
    rewrite Hnil in Hin. by apply elem_of_nil in Hin.
  - intros Hall. destruct (stale R names) as [|f l] eqn:E; [done|].
    assert (f ∈ stale R names) as [Hf HfR]%elem_of_stale by (rewrite E; left).
    by apply Hall in Hf.
Qed.

Lemma dir_not_own_entry d f : d ≠ join d f.
Proof.
  intros H%(f_equal length). unfold join in H. rewrite length_app in H.
  simpl in H. lia.
Qed.

(** X9: in every run of the removal phase, whether it returns or raises,
    each path handed to [os.remove] is an entry of the directory whose
    name the server does not list; nothing is created or rewritten (what
    is on the filesystem afterwards was there before, unchanged), the
    entries the server lists are as they were, and so is every path that
    is not an entry of the directory. *)
Theorem remove_invalid_only_unlinks_stale d R fs :
  (∀ p, p ∈ removals (calls (remove_invalid d R fs)) →
        ∃ f, f ∈ entries fs d ∧ (f ∉ R) ∧ p = join d f) ∧
  (∀ p n, final_fs (remove_invalid d R fs) !! p = Some n → fs !! p = Some n) ∧
  (∀ f, f ∈ R →
        final_fs (remove_invalid d R fs) !! join d f = fs !! join d f) ∧
  (∀ p, child_name d p = None →
        final_fs (remove_invalid d R fs) !! p = fs !! p).
Proof.
  destruct (decide (fs !! d = Some Dir)) as [Hd|Hd].
  2: { destruct (remove_invalid_no_dir d R fs Hd) as [e ->].
       cbn [calls final_fs fst snd].
       split; [|done]. intros p. cbn. by intros ?%elem_of_nil. }
  rewrite remove_invalid_unfold by done. cbn [calls final_fs fst snd].
  destruct (removal_loop_run d R (entries fs d) fs (NoDup_entries _ _))
    as (_ & Hfr & _).
  split; [|split; [|split]].
  - intros p. cbn. apply removal_loop_removals.
  - intros p n Hp. destruct (Hfr p) as [<-|[Hnone _]]; [done|congruence].
  - intros f HfR. destruct (Hfr (join d f)) as [?|(_ & g & _ & HgR & Heq)];
      [done|]. apply join_inj in Heq. by subst.
  - intros p Hp. destruct (Hfr p) as [?|(_ & g & _ & _ & ->)]; [done|].
    by rewrite child_name_join in Hp.
Qed.

(** X10: a removal phase that has returned has met no sub-directory among
    the entries the server does not list: the directory existed, and each
    such entry was a regular file, was handed to [os.remove], and is gone
    from the filesystem the phase leaves.  So a sub-directory the server
    does not list always keeps the phase from returning. *)
Theorem remove_invalid_return_requires_files d R fs fs1 t1 :
  remove_invalid d R fs = (Returned tt, fs1, t1) →
  fs !! d = Some Dir ∧
  ∀ f, f ∈ entries fs d → f ∉ R →
       is_file (fs !! join d f) = true ∧ fs1 !! join d f = None ∧
       Remove (join d f) ∈ t1.
Proof.
  intros Hrun.
  assert (fs !! d = Some Dir) as Hd.
  { destruct (decide (fs !! d = Some Dir)) as [|Hd]; [done|].
    destruct (remove_invalid_no_dir d R fs Hd) as [e He]. congruence. }
  split; [done|].
  assert (∀ f, f ∈ entries fs d → f ∉ R → is_file (fs !! join d f) = true)
    as Hfiles.
  { rewrite remove_invalid_unfold in Hrun by done.
    destruct (removal_loop_run d R (entries fs d) fs (NoDup_entries _ _))
      as (_ & _ & Hres).
    destruct (for_each (entries fs d) (remove_if_invalid d R) fs)
      as [[[[]|e'] fs'] t']; cbn [result final_fs calls fst snd] in *; [|done].
    intros f Hf HfR. by apply Hres. }
  rewrite remove_invalid_success in Hrun by done.
  injection Hrun as <- <-.
  intros f Hf HfR. split; [by apply Hfiles|]. split.
  - rewrite unlink_all_lookup, bool_decide_eq_true_2; [done|].
    apply list_elem_of_fmap. exists f. split; [done|]. by apply elem_of_stale.
  - right. apply list_elem_of_In, in_flat_map. exists f. split.
    + apply list_elem_of_In. by apply elem_of_stale.
    + by left.
Qed.

(** X11: a removal phase that has returned can be repeated: on the
    filesystem it left, the same phase lists the directory, calls
    [os.remove] on nothing and changes nothing. *)
Theorem remove_invalid_idempotent d R fs fs1 t1 :
  remove_invalid d R fs = (Returned tt, fs1, t1) →
  remove_invalid d R fs1 = (Returned tt, fs1, [Listdir d]).
Proof.
  intros Hrun.
  pose proof (remove_invalid_leaves_listed d R fs fs1 t1 Hrun) as Hlisted.
  assert (fs !! d = Some Dir) as Hd.
  { destruct (decide (fs !! d = Some Dir)) as [|Hd]; [done|].
    destruct (remove_invalid_no_dir d R fs Hd) as [e He]. congruence. }
  assert (fs1 !! d = Some Dir) as Hd1.
  { rewrite remove_invalid_unfold in Hrun by done.
    destruct (removal_loop_run d R (entries fs d) fs (NoDup_entries _ _))
      as (_ & Hfr & _).
    injection Hrun as _ Hfs _. rewrite Hfs in Hfr.
    destruct (Hfr d) as [->|(_ & g & _ & _ & Heq)]; [done|].
    by apply dir_not_own_entry in Heq. }
  rewrite remove_invalid_success; [|done|].
  - apply stale_nil_iff in Hlisted. by rewrite Hlisted.
  - intros f Hf HfR. by apply Hlisted in Hf.
Qed.

(** X12: once the removal phase has returned and the server has answered
    with a download list, [sync_dir] returns, and the sequence it yields
    is the sequence of progress tuples of [remote.download_files], tuple
    for tuple and in the same order; the filesystem it leaves is the one
    [remote.download_files] left. *)
Theorem sync_dir_forwards_progress d url R jobs fs fs1 t1 :
  get_filenames net url = Some R →
  remove_invalid d R fs = (Returned tt, fs1, t1) →
  get_file_downloads net url = Some jobs →
  result (sync_dir_resolved net d (Some url) fs) = Returned tt ∧
  yielded (calls (sync_dir_resolved net d (Some url) fs))
    = (download_files net jobs d fs1).1 ∧
  final_fs (sync_dir_resolved net d (Some url) fs)
    = (download_files net jobs d fs1).2.
Proof.
  intros HR Hrun Hjobs.
  rewrite (sync_dir_resolved_unfold net d url R fs HR), Hrun.
  rewrite download_mods_unfold, Hjobs.
  cbn [result final_fs calls fst snd]. split; [done|]. split; [|done].
  destruct (remove_invalid_calls d R fs) as [_ Hy]. rewrite Hrun in Hy.
  cbn [calls snd] in Hy.
  change (yielded (GetFilenames url :: t1 ++ ?t)) with (yielded (t1 ++ t)).
  rewrite yielded_app, Hy. cbn [app].
  change (yielded (GetFileDownloads url :: DownloadFiles jobs d :: ?t))
    with (yielded t).
  apply yielded_yields.
Qed.

(** The removal phase lists the directory, unlinks and logs, and makes no
    other call. *)
Lemma remove_invalid_trace d R fs ev :
  ev ∈ calls (remove_invalid d R fs) → ev = Listdir d ∨ is_removal_call ev = true.
Proof.
  destruct (decide (fs !! d = Some Dir)) as [Hd|Hd].
  - rewrite remove_invalid_unfold by done. cbn [calls snd].
    destruct (removal_loop_run d R (entries fs d) fs (NoDup_entries _ _))
      as (Hc & _ & _).
    intros [->|Hin]%elem_of_cons; [by left|right].
    rewrite forallb_forall in Hc. by apply Hc, list_elem_of_In.
  - destruct (remove_invalid_no_dir d R fs Hd) as [e ->]. cbn [calls snd].
    intros [->|[]%elem_of_nil]%elem_of_cons. by left.
Qed.

(** X13: an exception of the removal phase, whichever it is, leaves
    [sync_dir] as it was raised: the run of the body ends with that
    exception on the filesystem the removal phase left, its calls are the
    request for the file names followed by those of the removal phase, and
    so the download list is not requested, nothing is submitted for
    download and nothing is yielded. *)
Theorem removal_failure_ends_body d url R fs e :
  get_filenames net url = Some R →
  result (remove_invalid d R fs) = Raised e →
  sync_dir_resolved net d (Some url) fs =
    (Raised e, final_fs (remove_invalid d R fs),
     GetFilenames url :: calls (remove_invalid d R fs)) ∧
  (GetFileDownloads url ∉ calls (sync_dir_resolved net d (Some url) fs)) ∧
  submitted (calls (sync_dir_resolved net d (Some url) fs)) = [] ∧
  yielded (calls (sync_dir_resolved net d (Some url) fs)) = [].
Proof.
  intros HR Hrun.
  rewrite (sync_dir_resolved_unfold net d url R fs HR).
  destruct (remove_invalid_calls d R fs) as [Hs Hy].
  pose proof (remove_invalid_trace d R fs) as Ht.
  destruct (remove_invalid d R fs) as [[[[]|e'] fs1] t1];
    cbn [result final_fs calls fst snd] in *; [done|].
  injection Hrun as ->. split; [done|]. split; [|done].
  intros [?|Hin]%elem_of_cons; [done|]. by apply Ht in Hin as [?|?].
Qed.

End DirSyncProperties.

(** ** The further properties on concrete installations *)

Import Cases.

(** X1, on a first run for the options file: the file is left as it was
    and the working directory is a directory. *)
Lemma create_file_path_all_or_nothing_witness :
  final_fs (_create_file_path manager "options" disk_fresh) !! options_path
    = Some (File "fov:90") ∧
  final_fs (_create_file_path manager_dirs_only "options" disk_fresh)
    = disk_fresh.
Proof.
  destruct (create_file_path_all_or_nothing manager "options" disk_fresh)
    as (_ & Hkeep & _).
  destruct (create_file_path_all_or_nothing manager_dirs_only "options"
              disk_fresh) as (Hfail & _ & _).
  split.
  - apply Hkeep. vm_compute. reflexivity.
  - apply (Hfail (ValueError "Invalid remote file")). vm_compute. reflexivity.
Defined.

(** X2, on the same first run. *)
Lemma create_file_path_idempotent_witness :
  _create_file_path manager "options" (with_dirs disk_fresh store) =
    (Returned (options_path, Some options_url), with_dirs disk_fresh store,
     [Mkdir store; Log DEBUG "Remote file URL: %s"]).
Proof.
  apply (create_file_path_idempotent manager "options" disk_fresh).
  vm_compute. reflexivity.
Defined.

(** X4, with a directory where the options file should be: the run
    raises, the directory and everything else stay, nothing is
    downloaded. *)
Lemma sync_file_failure_keeps_files_witness :
  result (sync_file server manager "options" disk_options_dir)
    = Raised (IsADirectoryError options_path) ∧
  (∀ q n, disk_options_dir !! q = Some n →
          final_fs (sync_file server manager "options" disk_options_dir) !! q
            = Some n) ∧
  (∀ j q, Download j q
            ∉ calls (sync_file server manager "options" disk_options_dir)).
Proof.
  split; [vm_compute; reflexivity|].
  apply (sync_file_failure_keeps_files server manager "options"
           disk_options_dir (IsADirectoryError options_path)).
  vm_compute. reflexivity.
Defined.

(** X5, for the servers file, which the manifest has a URL for and the
    server has no record of. *)
Lemma sync_file_without_record_witness :
  sync_file server manager_files "servers" disk_fresh =
    (Raised (ValueError "Server file is not set"),
     with_dirs disk_fresh (work_dir manager_files),
     [Mkdir (work_dir manager_files); Log DEBUG "Remote file URL: %s";
      GetFileDownload servers_url]) ∧
  with_dirs disk_fresh (work_dir manager_files)
    !! local_file manager_files "servers"
    = disk_fresh !! local_file manager_files "servers".
Proof.
  apply (sync_file_without_record server manager_files "servers"
           {[ "urls" := files_urls ]} files_urls servers_url disk_fresh).
  - reflexivity.
  - reflexivity.
  - right. reflexivity.
  - reflexivity.
  - reflexivity.
  - vm_compute. reflexivity.
Defined.

(** X6, with a directory where the options file should be. *)
Lemma sync_file_on_directory_witness :
  sync_file server manager "options" disk_options_dir =
    (Raised (IsADirectoryError (local_file manager "options")),
     with_dirs disk_options_dir (work_dir manager),
     [Mkdir (work_dir manager); Log DEBUG "Remote file URL: %s";
      GetFileDownload options_url; Exists (local_file manager "options");
      Remove (local_file manager "options")]) ∧
  with_dirs disk_options_dir (work_dir manager) !! local_file manager "options"
    = Some Dir.
Proof.
  apply (sync_file_on_directory server manager "options"
           {[ "urls" := manifest_urls ]} manifest_urls options_url options
           disk_options_dir).
  - reflexivity.
  - reflexivity.
  - left. reflexivity.
  - reflexivity.
  - reflexivity.
  - vm_compute. reflexivity.
  - vm_compute. reflexivity.
Defined.

(** X7, with the server of [Scenario], whose download writes its
    destination only: a run for the options file leaves the installed mod
    alone. *)
Lemma sync_file_frame_witness :
  final_fs (sync_file server manager "options" disk_plain)
    !! join mods_dir "sodium.jar" = disk_plain !! join mods_dir "sodium.jar".
Proof.
  apply (sync_file_frame server manager "options" disk_plain).
  - intros j dest fs0 q Hq. cbn. by apply lookup_insert_ne.
  - apply (bool_decide_unpack _). vm_compute. exact I.
  - vm_compute. discriminate.
Defined.

(** X8, with the same server: a second run for the options file. *)
Lemma sync_file_idempotent_witness :
  sync_file server manager "options"
    (final_fs (sync_file server manager "options" disk_fresh)) =
    (Returned tt, final_fs (sync_file server manager "options" disk_fresh),
     [Mkdir (work_dir manager); Log DEBUG "Remote file URL: %s";
      GetFileDownload options_url; Exists (local_file manager "options");
      Remove (local_file manager "options");
      Log INFO "Removed existing local file '%s'";
      Download options (local_file manager "options")]).
Proof.
  apply (sync_file_idempotent server manager "options"
           {[ "urls" := manifest_urls ]} manifest_urls options_url options
           (job_url options) disk_fresh).
  - reflexivity.
  - reflexivity.
  - left. reflexivity.
  - reflexivity.
  - reflexivity.
  - vm_compute. reflexivity.
  - vm_compute. discriminate.
  - intros fs0. reflexivity.
Defined.

(** X9, on the directory with an outdated file: the path that was
    unlinked is an entry the server does not list, and the installed mod
    the server lists is as it was. *)
Lemma remove_invalid_only_unlinks_stale_witness :
  (∃ f, f ∈ entries disk_plain mods_dir ∧ (f ∉ listed) ∧
        join mods_dir "a.jar" = join mods_dir f) ∧
  final_fs (remove_invalid mods_dir listed disk_plain)
    !! join mods_dir "sodium.jar" = disk_plain !! join mods_dir "sodium.jar".
Proof.
  destruct (remove_invalid_only_unlinks_stale mods_dir listed disk_plain)
    as (Hrm & _ & Hlisted & _).
  split.
  - apply Hrm. apply (bool_decide_unpack _). vm_compute. exact I.
  - apply Hlisted. apply (bool_decide_unpack _). vm_compute. exact I.
Defined.

(** X10, on the directory that holds only regular files: the outdated
    file was a regular file, was handed to [os.remove] and is gone. *)
Lemma remove_invalid_return_requires_files_witness :
  disk_plain !! mods_dir = Some Dir ∧
  ∀ f, f ∈ entries disk_plain mods_dir → f ∉ listed →
       is_file (disk_plain !! join mods_dir f) = true ∧
       final_fs (remove_invalid mods_dir listed disk_plain) !! join mods_dir f
         = None ∧
       Remove (join mods_dir f)
         ∈ calls (remove_invalid mods_dir listed disk_plain).
Proof.
  apply (remove_invalid_return_requires_files mods_dir listed disk_plain).
  vm_compute. reflexivity.
Defined.

(** X11, on the directory with an outdated file. *)
Lemma remove_invalid_idempotent_witness :
  remove_invalid mods_dir listed
    (final_fs (remove_invalid mods_dir listed disk_plain)) =
    (Returned tt, final_fs (remove_invalid mods_dir listed disk_plain),
     [Listdir mods_dir]).
Proof.
  apply (remove_invalid_idempotent mods_dir listed disk_plain _
           (calls (remove_invalid mods_dir listed disk_plain))).
  vm_compute. reflexivity.
Defined.

(** X12, on the same directory, with the server that lists two mods. *)
Lemma sync_dir_forwards_progress_witness :
  result (sync_dir_resolved server mods_dir (Some mods_url) disk_plain)
    = Returned tt ∧
  yielded (calls (sync_dir_resolved server mods_dir (Some mods_url) disk_plain))
    = (download_files server [sodium; lithium] mods_dir
         (final_fs (remove_invalid mods_dir listed disk_plain))).1 ∧
  final_fs (sync_dir_resolved server mods_dir (Some mods_url) disk_plain)
    = (download_files server [sodium; lithium] mods_dir
         (final_fs (remove_invalid mods_dir listed disk_plain))).2.
Proof.
  apply (sync_dir_forwards_progress server mods_dir mods_url listed
           [sodium; lithium] disk_plain _
           (calls (remove_invalid mods_dir listed disk_plain))).
  - reflexivity.
  - vm_compute. reflexivity.
  - reflexivity.
Defined.

(** X13, on the directory with a sub-directory the server does not
    list. *)
Lemma removal_failure_ends_body_witness :
  sync_dir_resolved server mods_dir (Some mods_url) disk_with_subdir =
    (Raised (IsADirectoryError (join mods_dir "libs")),
     final_fs (remove_invalid mods_dir listed disk_with_subdir),
     GetFilenames mods_url
       :: calls (remove_invalid mods_dir listed disk_with_subdir)) ∧
  (GetFileDownloads mods_url
     ∉ calls (sync_dir_resolved server mods_dir (Some mods_url)
                disk_with_subdir)) ∧
  submitted (calls (sync_dir_resolved server mods_dir (Some mods_url)
                      disk_with_subdir)) = [] ∧
  yielded (calls (sync_dir_resolved server mods_dir (Some mods_url)
                    disk_with_subdir)) = [].
Proof.
  apply (removal_failure_ends_body server mods_dir mods_url listed
           disk_with_subdir).
  - reflexivity.
  - vm_compute. reflexivity.
Defined.
